(** * get_aircontrol_kml: inventory / coordinate correlation

    A shallow embedding of [get_aircontrol_kml.py] and the properties of
    its correlation pipeline: URL construction, the REST fetch, the
    geo index, the Ubiquiti model list, the MAC filter over inventory
    items and the join of devices with coordinates.

    Conventions of the embedding.
    - A Python [str] is the [string] of the bytes of its UTF-8 encoding
      (section Strings).  Equality, concatenation and the first
      character of an endpoint read the same on the bytes, and so does
      the MAC pattern, whose character classes hold characters below
      U+0080 only.
    - JSON integers (ids, page numbers, status codes) are [Z].
    - A Python [dict] is an association list kept in insertion order
      ([PyDict]); assigning to a present key replaces the value in place.
    - A coordinate is opaque: the script only copies it.
    - Exceptions are values of [error]; the requests performed are
      recorded in a log threaded through the [M] monad. *)

From Stdlib Require Import String Ascii List ZArith Bool Lia Finite.
Import ListNotations.
Local Open Scope string_scope.
Local Open Scope Z_scope.

(** ** Strings

    A Python [str] is given by the bytes of its UTF-8 encoding: a
    character below U+0080 is one byte, any other character is a lead
    byte followed by continuation bytes, all of them 128 or more. *)

Module Str.

Definition is_lower (c : ascii) : bool :=
  ((97 <=? nat_of_ascii c) && (nat_of_ascii c <=? 122))%nat.

(** [c.upper()] on one character below U+0080. *)
Definition upper_char (c : ascii) : ascii :=
  if is_lower c then ascii_of_nat (nat_of_ascii c - 32) else c.

(** The three bytes EF AC 80 of U+FB00, LATIN SMALL LIGATURE FF. *)
Definition is_ff_ligature (a b c : ascii) : bool :=
  ((nat_of_ascii a =? 239) && (nat_of_ascii b =? 172) && (nat_of_ascii c =? 128))%nat.

(** [s.upper()], as far as the MAC pattern can tell.  Python upper-cases
    with the full case mapping of Unicode, which may lengthen the text.
    The characters whose upper-case is made of characters of the
    pattern's alphabet ([0-9A-F], ':', '-', and the newline of [$]) are
    those of the alphabet, the letters [a-f], and U+FB00 whose upper-case
    is the two letters FF; they are upper-cased as Python does, and so
    are the other characters below U+0080.  Any other character has, in
    Python, an upper-case with a character outside the alphabet; its
    bytes, all outside the alphabet, are left as they are.  The pattern
    test therefore has Python's outcome on every [str]. *)
Fixpoint upper (s : string) : string :=
  match s with
  | EmptyString => EmptyString
  | String a r =>
      match r with
      | String b (String c r') =>
          if is_ff_ligature a b c
          then String "F" (String "F" (upper r'))
          else String (upper_char a) (upper r)
      | _ => String (upper_char a) (upper r)
      end
  end.

(** Python's whitespace, the characters [str.strip] removes.  Below
    U+0080: TAB, LF, VT, FF, CR, FS, GS, RS, US and SPACE. *)
Definition is_space (c : ascii) : bool :=
  let n := nat_of_ascii c in
  (((9 <=? n) && (n <=? 13)) || ((28 <=? n) && (n <=? 32)))%nat.

(** In two bytes: U+0085 (C2 85) and U+00A0 (C2 A0). *)
Definition is_space2 (a b : ascii) : bool :=
  ((nat_of_ascii a =? 194)
   && ((nat_of_ascii b =? 133) || (nat_of_ascii b =? 160)))%nat.

(** In three bytes: U+1680 (E1 9A 80), U+2000 to U+200A (E2 80 80 to
    E2 80 8A), U+2028, U+2029 and U+202F (E2 80 A8, A9 and AF), U+205F
    (E2 81 9F) and U+3000 (E3 80 80). *)
Definition is_space3 (a b c : ascii) : bool :=
  let x := nat_of_ascii a in
  let y := nat_of_ascii b in
  let z := nat_of_ascii c in
  (((x =? 225) && (y =? 154) && (z =? 128))
   || ((x =? 226) && (y =? 128)
       && (((128 <=? z) && (z <=? 138)) || (z =? 168) || (z =? 169) || (z =? 175)))
   || ((x =? 226) && (y =? 129) && (z =? 159))
   || ((x =? 227) && (y =? 128) && (z =? 128)))%nat.

(** The text without the whitespace at its front.  With [back], the text
    is read backwards, the bytes of a character last byte first. *)
Fixpoint strip_front (back : bool) (s : string) : string :=
  match s with
  | EmptyString => EmptyString
  | String a r =>
      if is_space a then strip_front back r
      else
        match r with
        | EmptyString => s
        | String b r2 =>
            if (if back then is_space2 b a else is_space2 a b)
            then strip_front back r2
            else
              match r2 with
              | EmptyString => s
              | String c r3 =>
                  if (if back then is_space3 c b a else is_space3 a b c)
                  then strip_front back r3
                  else s
              end
        end
  end.

(** [s.lstrip()] *)
Definition lstrip (s : string) : string := strip_front false s.

Fixpoint rev_onto (s acc : string) : string :=
  match s with
  | EmptyString => acc
  | String c r => rev_onto r (String c acc)
  end.

Definition rev (s : string) : string := rev_onto s EmptyString.

(** [s.strip()]: the trimming the specification speaks of.  The script
    itself never calls it. *)
Definition strip (s : string) : string := rev (strip_front true (rev (lstrip s))).

Definition newline : ascii := ascii_of_nat 10.

(** [s + "\n"] *)
Definition with_newline (s : string) : string := s ++ String newline EmptyString.

(** The text of one character given by the bytes of its encoding. *)
Definition bytes (l : list nat) : string :=
  fold_right (fun n s => String (ascii_of_nat n) s) EmptyString l.

(** U+FB00 *)
Definition ff_ligature : string := bytes [239; 172; 128]%nat.

End Str.

(** ** Regular expressions, as far as the script uses them

    [re.match(pattern, s)] tries the pattern at position 0 of [s] and
    succeeds when some way of matching exists.  The matcher below
    returns every position (as the number of characters consumed, with
    the remaining text) at which a pattern can stop.  The character
    classes of the script hold characters below U+0080, which are one
    byte each, so that a class takes one byte of the text. *)

Module Re.

Inductive item : Type :=
| Lit (c : ascii)
| Range (lo hi : ascii).

Inductive regex : Type :=
| Bol                          (* ^ *)
| Eol                          (* $ *)
| Set_ (cs : list item)        (* [...] *)
| Seq (r1 r2 : regex)
| Rep (n : nat) (r : regex).   (* r{n} *)

Definition in_item (c : ascii) (i : item) : bool :=
  match i with
  | Lit d => Ascii.eqb c d
  | Range lo hi =>
      ((nat_of_ascii lo <=? nat_of_ascii c) && (nat_of_ascii c <=? nat_of_ascii hi))%nat
  end.

Definition in_set (cs : list item) (c : ascii) : bool :=
  existsb (in_item c) cs.

(** A matcher position: characters consumed so far, text left. *)
Definition pos : Type := (nat * string)%type.

(** [$] without MULTILINE: at the end of the text, or just before a
    newline that is the last character. *)
Definition at_eol (rest : string) : bool :=
  match rest with
  | EmptyString => true
  | String c EmptyString => Ascii.eqb c Str.newline
  | _ => false
  end.

Fixpoint iter (n : nat) (f : pos -> list pos) (p : pos) : list pos :=
  match n with
  | O => [p]
  | S n' => flat_map (iter n' f) (f p)
  end.

Fixpoint run (r : regex) (p : pos) : list pos :=
  match r with
  | Bol => if Nat.eqb (fst p) 0 then [p] else []
  | Eol => if at_eol (snd p) then [p] else []
  | Set_ cs =>
      match snd p with
      | String c rest => if in_set cs c then [(S (fst p), rest)] else []
      | EmptyString => []
      end
  | Seq r1 r2 => flat_map (run r2) (run r1 p)
  | Rep n r1 => iter n (run r1) p
  end.

(** [re.match(r, s)] as a truth value: a match object or [None]. *)
Definition match_ (r : regex) (s : string) : bool :=
  match run r (O, s) with
  | [] => false
  | _ :: _ => true
  end.

End Re.

(** The pattern of the device filter:
    [^([0-9A-F]{2}[:-]){5}([0-9A-F]{2})$] *)

Definition HEX : Re.regex := Re.Set_ [Re.Range "0" "9"; Re.Range "A" "F"].
Definition SEP : Re.regex := Re.Set_ [Re.Lit ":"; Re.Lit "-"].
Definition GROUP : Re.regex := Re.Seq (Re.Rep 2 HEX) SEP.

Definition MAC_PATTERN : Re.regex :=
  Re.Seq Re.Bol (Re.Seq (Re.Rep 5 GROUP) (Re.Seq (Re.Rep 2 HEX) Re.Eol)).

(** The test of line 132: [match(PATTERN, field['data'].upper())]. *)
Definition is_mac (v : string) : bool := Re.match_ MAC_PATTERN (Str.upper v).

(** ** Python dictionaries *)

Module PyDict.

Class Key (K : Type) : Type := {
  eqb : K -> K -> bool;
  eqb_eq : forall x y, eqb x y = true <-> x = y
}.

#[global] Instance Key_Z : Key Z := {| eqb := Z.eqb; eqb_eq := Z.eqb_eq |}.
#[global] Instance Key_string : Key string :=
  {| eqb := String.eqb; eqb_eq := String.eqb_eq |}.

Section Dict.
Context {K V : Type} `{Key K}.

Definition t : Type := list (K * V).

Definition empty : t := [].

(** [d.get(k)]: [None] stands for the [KeyError] of [d[k]]. *)
Fixpoint get (k : K) (d : t) : option V :=
  match d with
  | [] => None
  | (k', v) :: r => if eqb k k' then Some v else get k r
  end.

(** [d[k] = v]: a present key keeps its place, a new one goes last. *)
Fixpoint set (k : K) (v : V) (d : t) : t :=
  match d with
  | [] => [(k, v)]
  | (k', v') :: r => if eqb k k' then (k', v) :: r else (k', v') :: set k v r
  end.

(** Iteration order of [for k in d]. *)
Definition keys (d : t) : list K := map fst d.

(** [{**d1, **d2}] *)
Definition merge (d1 d2 : t) : t :=
  fold_left (fun d kv => set (fst kv) (snd kv) d) d2 d1.

End Dict.

Arguments t : clear implicits.

End PyDict.

(** ** Exceptions and the request log *)

Inductive pykey : Type :=
| KStr (s : string)
| KInt (z : Z).

Inductive error : Type :=
| URLError (url : string)
| APIError (action url : string) (code : Z)
| KeyError (key : pykey).

Inductive result (A : Type) : Type :=
| Ok (a : A)
| Err (e : error).

Arguments Ok {A} a.
Arguments Err {A} e.

(** One call of [requests.get]: the URL and the [page] parameter
    ([None] when the keyword is not passed, so that [params] is empty). *)
Record Request : Type := { req_url : string; req_page : option Z }.

(** A computation that may raise and that performs requests: it gets the
    log of the requests made so far and returns it extended. *)
Definition M (A : Type) : Type := list Request -> result A * list Request.

Definition ret {A} (a : A) : M A := fun log => (Ok a, log).

Definition raise {A} (e : error) : M A := fun log => (Err e, log).

Definition bind {A B} (m : M A) (k : A -> M B) : M B :=
  fun log =>
    match m log with
    | (Ok a, log') => k a log'
    | (Err e, log') => (Err e, log')
    end.

Definition lift {A} (r : result A) : M A := fun log => (r, log).

Notation "x <- m ;; k" := (bind m (fun x => k))
  (at level 61, m at next level, right associativity).

(** [for x in xs: acc = body(acc, x)], stopping at the first exception. *)
Fixpoint for_each {A B} (xs : list A) (body : B -> A -> M B) (acc : B) : M B :=
  match xs with
  | [] => ret acc
  | x :: r => acc' <- body acc x ;; for_each r body acc'
  end.

(** [range(n)] *)
Definition range (n : Z) : list Z := map Z.of_nat (seq 0 (Z.to_nat n)).

(** ** The records of the Sonar API *)

Record InventoryModel : Type := {
  model_id : Z;                 (* model['id'] *)
  manufacturer_id : Z
}.

Record Field : Type := { field_data : string }.   (* field['data'] *)

Record InventoryItem : Type := {
  item_id : Z;                  (* item['id'] *)
  assignee_type : string;
  assignee_id : Z;
  inventory_model_id : Z;
  fields : list Field
}.

(** An entry of the [macs] dictionary. *)
Record Device : Type := { dev_assignee_id : Z; dev_mac : string }.

Definition BASE_URL : string := "https://wilsoncreek.sonar.software/api/v1".

(** [create_url(endpoint)] *)
Definition create_url (endpoint : string) : result string :=
  if negb (String.eqb (substring 0 1 endpoint) "/")
  then Err (URLError endpoint)
  else Ok (BASE_URL ++ endpoint).

Definition EXCLUDED_ASSIGNEES : list string :=
  ["generic_inventory_assignees"; "inventory_locations"; "vehicles"].

(** [x in xs] on lists *)
Definition str_in (x : string) (xs : list string) : bool := existsb (String.eqb x) xs.
Definition int_in (x : Z) (xs : list Z) : bool := existsb (Z.eqb x) xs.

(** Lines 131-136: the scan of the fields of one item. *)
Definition scan_field (item : InventoryItem) (macs : PyDict.t Z Device) (field : Field)
  : PyDict.t Z Device :=
  if is_mac (field_data field)
  then PyDict.set (item_id item)
         {| dev_assignee_id := assignee_id item; dev_mac := field_data field |} macs
  else macs.

(** Lines 129-136: the body of the loop over the items of a page. *)
Definition scan_item (models : list Z) (macs : PyDict.t Z Device) (item : InventoryItem)
  : PyDict.t Z Device :=
  if negb (str_in (assignee_type item) EXCLUDED_ASSIGNEES)
  then if int_in (inventory_model_id item) models
       then fold_left (scan_field item) (fields item) macs
       else macs
  else macs.

(** Lines 114-116: the body of the loop over the models of a page. *)
Definition scan_model (models : list Z) (model : InventoryModel) : list Z :=
  if manufacturer_id model =? 1 then models ++ [model_id model] else models.

Section Pipeline.

(** The coordinates of a feature, [point['geometry']['coordinates']]. *)
Context {Coord : Type}.

Record GeoFeature : Type := {
  properties_id : Z;            (* point['properties']['id'] *)
  geometry_coordinates : Coord
}.

(** The JSON documents of the three kinds of endpoint. *)
Inductive Json : Type :=
| ModelsPage (total_pages : Z) (data : list InventoryModel)
| ItemsPage (total_pages : Z) (data : list InventoryItem)
| FeatureCollection (features : list GeoFeature).

Record Response : Type := { status_code : Z; json : Json }.

(** [requests.get(url, params, headers, auth)]: the remote service. *)
Variable http_get : string -> option Z -> Response.

(** [rest_get(endpoint, page=page)] *)
Definition rest_get (endpoint : string) (page : option Z) : M Json :=
  request_url <- lift (create_url endpoint) ;;
  fun log =>
    let resp := http_get request_url page in
    let log' := (log ++ [{| req_url := request_url; req_page := page |}])%list in
    if negb (status_code resp =? 200)
    then (Err (APIError "GET" request_url (status_code resp)), log')
    else (Ok (json resp), log').

(** [doc['paginator']['total_pages']] *)
Definition paginator_total_pages (doc : Json) : result Z :=
  match doc with
  | ModelsPage n _ | ItemsPage n _ => Ok n
  | FeatureCollection _ => Err (KeyError (KStr "paginator"))
  end.

(** [doc['features']] *)
Definition get_features (doc : Json) : result (list GeoFeature) :=
  match doc with
  | FeatureCollection fs => Ok fs
  | _ => Err (KeyError (KStr "features"))
  end.

(** [doc['data']] read as models: the first record of another kind
    has no ['manufacturer_id']. *)
Definition data_models (doc : Json) : result (list InventoryModel) :=
  match doc with
  | ModelsPage _ ms => Ok ms
  | ItemsPage _ [] => Ok []
  | ItemsPage _ (_ :: _) => Err (KeyError (KStr "manufacturer_id"))
  | FeatureCollection _ => Err (KeyError (KStr "data"))
  end.

(** [doc['data']] read as items: the first record of another kind has
    no ['assignee_type']. *)
Definition data_items (doc : Json) : result (list InventoryItem) :=
  match doc with
  | ItemsPage _ its => Ok its
  | ModelsPage _ [] => Ok []
  | ModelsPage _ (_ :: _) => Err (KeyError (KStr "assignee_type"))
  | FeatureCollection _ => Err (KeyError (KStr "data"))
  end.

(** The loops of lines 85-86 and 96-98. *)
Definition index_features (geojson : list GeoFeature) : PyDict.t Z Coord :=
  fold_left (fun d point => PyDict.set (properties_id point) (geometry_coordinates point) d)
            geojson PyDict.empty.

Definition get_all_accounts_coordinates : M (PyDict.t Z Coord) :=
  doc <- rest_get "/mapping/geojson/accounts" None ;;
  geojson <- lift (get_features doc) ;;
  ret (index_features geojson).

Definition get_all_network_sites_coordinates : M (PyDict.t Z Coord) :=
  doc <- rest_get "/mapping/geojson/network_sites" None ;;
  geojson <- lift (get_features doc) ;;
  ret (index_features geojson).

Definition get_all_coordinates : M (PyDict.t Z Coord) :=
  accounts <- get_all_accounts_coordinates ;;
  network_sites <- get_all_network_sites_coordinates ;;
  ret (PyDict.merge accounts network_sites).

Definition get_all_ubiquiti_models : M (list Z) :=
  doc <- rest_get "/inventory/models" None ;;
  pages <- lift (paginator_total_pages doc) ;;
  for_each (range pages)
    (fun models page =>
       doc <- rest_get "/inventory/models" (Some page) ;;
       data <- lift (data_models doc) ;;
       ret (fold_left scan_model data models))
    [].

Definition get_all_active_ubiquiti_inventory_macs : M (PyDict.t Z Device) :=
  models <- get_all_ubiquiti_models ;;
  doc <- rest_get "/inventory/items" None ;;
  pages <- lift (paginator_total_pages doc) ;;
  for_each (range pages)
    (fun macs page =>
       doc <- rest_get "/inventory/items" (Some page) ;;
       data <- lift (data_items doc) ;;
       ret (fold_left (scan_item models) data macs))
    PyDict.empty.

(** Line 148: [matched[macs[item]['mac']] = coordinates[macs[item]['assignee_id']]] *)
Definition join_step (macs : PyDict.t Z Device) (coordinates : PyDict.t Z Coord)
    (matched : PyDict.t string Coord) (item : Z) : result (PyDict.t string Coord) :=
  match PyDict.get item macs with
  | None => Err (KeyError (KInt item))
  | Some dev =>
      match PyDict.get (dev_assignee_id dev) coordinates with
      | None => Err (KeyError (KInt (dev_assignee_id dev)))
      | Some c => Ok (PyDict.set (dev_mac dev) c matched)
      end
  end.

(** Lines 145-150: the join of the devices with the coordinates. *)
Definition join (macs : PyDict.t Z Device) (coordinates : PyDict.t Z Coord)
  : M (PyDict.t string Coord) :=
  for_each (PyDict.keys macs)
    (fun matched item => lift (join_step macs coordinates matched item))
    PyDict.empty.

Definition match_coordinates_to_inventory : M (PyDict.t string Coord) :=
  macs <- get_all_active_ubiquiti_inventory_macs ;;
  coordinates <- get_all_coordinates ;;
  join macs coordinates.

End Pipeline.

Arguments GeoFeature : clear implicits.
Arguments Json : clear implicits.
Arguments Response : clear implicits.

(** ** Notions the properties are stated with *)

Definition nonempty {A} (l : list A) : bool :=
  match l with [] => false | _ :: _ => true end.

(** A hexadecimal digit, in either case. *)
Definition hex_digit (c : ascii) : bool :=
  let n := nat_of_ascii c in
  (((48 <=? n) && (n <=? 57)) || ((65 <=? n) && (n <=? 70))
   || ((97 <=? n) && (n <=? 102)))%nat.

(** A hexadecimal digit of the pattern: [0-9A-F]. *)
Definition HEX_digit (c : ascii) : bool :=
  let n := nat_of_ascii c in
  (((48 <=? n) && (n <=? 57)) || ((65 <=? n) && (n <=? 70)))%nat.

Definition is_colon (c : ascii) : bool := Ascii.eqb c ":".
Definition is_hyphen (c : ascii) : bool := Ascii.eqb c "-".
Definition is_separator (c : ascii) : bool := is_colon c || is_hyphen c.

Definition is_empty (s : string) : bool :=
  match s with EmptyString => true | String _ _ => false end.

(** [groups hex sep tail n s]: [s] is [n + 1] groups of two [hex]
    characters, joined by [n] characters that satisfy [sep], followed by
    a text that satisfies [tail]. *)
Fixpoint groups (hex sep : ascii -> bool) (tail : string -> bool) (n : nat) (s : string)
  : bool :=
  match s with
  | String a (String b r) =>
      hex a && hex b &&
      match n with
      | O => tail r
      | S n' =>
          match r with
          | String c r' => sep c && groups hex sep tail n' r'
          | EmptyString => false
          end
      end
  | _ => false
  end.

(** The text begins with U+FB00. *)
Definition starts_ff (s : string) : bool :=
  match s with
  | String a (String b (String c _)) => Str.is_ff_ligature a b c
  | _ => false
  end.

(** A group as the filter takes it: two hex digits of either case, or
    the one character U+FB00, whose upper-case is FF.  The result is the
    text after the group. *)
Definition take_group (s : string) : option string :=
  match s with
  | String a (String b r) =>
      if hex_digit a && hex_digit b then Some r
      else
        match r with
        | String c r' => if Str.is_ff_ligature a b c then Some r' else None
        | EmptyString => None
        end
  | _ => None
  end.

(** [ugroups sep tail n s]: [s] is [n + 1] groups, each of them two hex
    digits or U+FB00, joined by [n] characters that satisfy [sep],
    followed by a text that satisfies [tail]. *)
Fixpoint ugroups (sep : ascii -> bool) (tail : string -> bool) (n : nat) (s : string)
  : bool :=
  match take_group s with
  | Some r =>
      match n with
      | O => tail r
      | S n' =>
          match r with
          | String c r' => sep c && ugroups sep tail n' r'
          | EmptyString => false
          end
      end
  | None => false
  end.

(** Six groups, each of them two hex digits or U+FB00, each separator a
    colon or a hyphen. *)
Definition mac48u (s : string) : bool := ugroups is_separator is_empty 5 s.

(** Six groups of two hex digits, each separator a colon or a hyphen. *)
Definition mac48 (s : string) : bool := groups hex_digit is_separator is_empty 5 s.

(** The reading of the specification: six groups of two hex digits with
    one and the same separator throughout, all colons or all hyphens. *)
Definition mac48_consistent (s : string) : bool :=
  groups hex_digit is_colon is_empty 5 s || groups hex_digit is_hyphen is_empty 5 s.

(** An item the filter goes on to scan (lines 129-130). *)
Definition eligible (models : list Z) (item : InventoryItem) : bool :=
  negb (str_in (assignee_type item) EXCLUDED_ASSIGNEES)
  && int_in (inventory_model_id item) models.

(** The reading of the specification: the value of the first field, in
    field order, that passes the MAC test. *)
Fixpoint first_mac (fs : list Field) : option string :=
  match fs with
  | [] => None
  | f :: r => if is_mac (field_data f) then Some (field_data f) else first_mac r
  end.

(** The value of the last field, in field order, that passes the MAC test. *)
Fixpoint last_mac (fs : list Field) : option string :=
  match fs with
  | [] => None
  | f :: r =>
      match last_mac r with
      | Some m => Some m
      | None => if is_mac (field_data f) then Some (field_data f) else None
      end
  end.

(** How many fields pass the MAC test. *)
Definition mac_count (fs : list Field) : nat :=
  length (filter (fun f => is_mac (field_data f)) fs).

(** The mac kept for an item id, if any. *)
Definition kept_mac (item : Z) (macs : PyDict.t Z Device) : option string :=
  option_map dev_mac (PyDict.get item macs).

(** The reading of the specification: the test is made on the trimmed,
    upper-cased value. *)
Definition is_mac_trimmed (v : string) : bool :=
  Re.match_ MAC_PATTERN (Str.upper (Str.strip v)).

Definition request_eqb (a b : Request) : bool :=
  String.eqb (req_url a) (req_url b)
  && match req_page a, req_page b with
     | None, None => true
     | Some p, Some q => p =? q
     | _, _ => false
     end.

(** How many times a request occurs in a log. *)
Definition fetches (r : Request) (log : list Request) : nat :=
  length (filter (request_eqb r) log).

(** The requests of one pagination: one without [page], which reads
    [total_pages], then one for each page number of [range(n)]. *)
Definition pagination_requests (url : string) (n : Z) : list Request :=
  {| req_url := url; req_page := None |}
  :: map (fun p => {| req_url := url; req_page := Some p |}) (range n).

Definition MODELS_URL : string := BASE_URL ++ "/inventory/models".
Definition ITEMS_URL : string := BASE_URL ++ "/inventory/items".
Definition ACCOUNTS_URL : string := BASE_URL ++ "/mapping/geojson/accounts".
Definition SITES_URL : string := BASE_URL ++ "/mapping/geojson/network_sites".

Section Service.

Context {Coord : Type}.
Variable http_get : string -> option Z -> Response Coord.

(** The request answers 200 with document [doc]. *)
Definition answers (url : string) (page : option Z) (doc : Json Coord) : Prop :=
  http_get url page = {| status_code := 200; json := doc |}.

(** The paged resource at [url] reports [n] pages and serves the records
    [pg p] as page [p], for every page number of [range(n)]. *)
Definition serves_models (url : string) (n : Z) (pg : Z -> list InventoryModel) : Prop :=
  (exists doc, answers url None doc /\ paginator_total_pages doc = Ok n)
  /\ Forall (fun p => exists doc, answers url (Some p) doc /\ data_models doc = Ok (pg p))
            (range n).

Definition serves_items (url : string) (n : Z) (pg : Z -> list InventoryItem) : Prop :=
  (exists doc, answers url None doc /\ paginator_total_pages doc = Ok n)
  /\ Forall (fun p => exists doc, answers url (Some p) doc /\ data_items doc = Ok (pg p))
            (range n).

End Service.

(** All the records of the pages [0 .. n-1], in page order. *)
Definition all_records {R : Type} (n : Z) (pg : Z -> list R) : list R :=
  concat (map pg (range n)).

(** ** Sample data *)

Module Sample.

Definition three_fields : list Field :=
  [ {| field_data := "not-a-mac" |};
    {| field_data := "AA:BB:CC:DD:EE:FF" |};
    {| field_data := "11:22:33:44:55:66" |} ].

Definition item10 (fs : list Field) (atype : string) : InventoryItem :=
  {| item_id := 10; assignee_type := atype; assignee_id := 100;
     inventory_model_id := 1; fields := fs |}.

Definition models : list InventoryModel := [ {| model_id := 1; manufacturer_id := 1 |} ].

Definition items : list InventoryItem :=
  [ item10 [ {| field_data := "AA:BB:CC:DD:EE:FF" |} ] "account" ].

Definition accounts : list (GeoFeature (Z * Z)) :=
  [ {| properties_id := 100; geometry_coordinates := (5, 6) |} ].

(** A service with one page of each paged resource and no network site. *)
Definition http_get (url : string) (page : option Z) : Response (Z * Z) :=
  if String.eqb url MODELS_URL then {| status_code := 200; json := ModelsPage 1 models |}
  else if String.eqb url ITEMS_URL then {| status_code := 200; json := ItemsPage 1 items |}
  else if String.eqb url ACCOUNTS_URL
       then {| status_code := 200; json := FeatureCollection accounts |}
  else if String.eqb url SITES_URL then {| status_code := 200; json := FeatureCollection [] |}
  else {| status_code := 404; json := FeatureCollection [] |}.

(** A service whose resources have two pages, and where account 1 and
    network site 1 share their id. *)
Definition two_pages (url : string) (page : option Z) : Response (Z * Z) :=
  if String.eqb url MODELS_URL
  then {| status_code := 200;
          json := ModelsPage 2
                    match page with
                    | Some 1 => [ {| model_id := 7; manufacturer_id := 2 |};
                                  {| model_id := 8; manufacturer_id := 1 |} ]
                    | _ => models
                    end |}
  else if String.eqb url ITEMS_URL
  then {| status_code := 200;
          json := ItemsPage 2
                    match page with
                    | Some 1 => [ item10 three_fields "vehicles" ]
                    | _ => [ item10 three_fields "accounts" ]
                    end |}
  else if String.eqb url ACCOUNTS_URL
  then {| status_code := 200;
          json := FeatureCollection [ {| properties_id := 1; geometry_coordinates := (1, 1) |} ] |}
  else if String.eqb url SITES_URL
  then {| status_code := 200;
          json := FeatureCollection [ {| properties_id := 1; geometry_coordinates := (2, 2) |} ] |}
  else {| status_code := 404; json := FeatureCollection [] |}.

End Sample.

(** ** Further notions: what the loops compute *)

(** The coordinate of the last feature, in order, with the id [k]. *)
Fixpoint last_coord {Coord : Type} (k : Z) (geojson : list (GeoFeature Coord))
  : option Coord :=
  match geojson with
  | [] => None
  | point :: r =>
      match last_coord k r with
      | Some c => Some c
      | None => if properties_id point =? k then Some (geometry_coordinates point) else None
      end
  end.

(** The ids of the models of manufacturer 1, in order, repeats included. *)
Definition ubiquiti_ids (ms : list InventoryModel) : list Z :=
  map model_id (filter (fun model => manufacturer_id model =? 1) ms).

(** The device an item gives, if it gives one. *)
Definition item_device (models : list Z) (item : InventoryItem) : option Device :=
  if eligible models item
  then option_map (fun m => {| dev_assignee_id := assignee_id item; dev_mac := m |})
                  (last_mac (fields item))
  else None.

(** The device of the last item, in order, that has the id [k] and gives
    a device. *)
Fixpoint kept_device (models : list Z) (items : list InventoryItem) (k : Z)
  : option Device :=
  match items with
  | [] => None
  | item :: r =>
      match kept_device models r k with
      | Some dev => Some dev
      | None => if item_id item =? k then item_device models item else None
      end
  end.

(** The last device, in the order of the dictionary, with the mac [mac]. *)
Fixpoint last_with_mac (mac : string) (macs : PyDict.t Z Device) : option Device :=
  match macs with
  | [] => None
  | (_, dev) :: r =>
      match last_with_mac mac r with
      | Some d => Some d
      | None => if String.eqb (dev_mac dev) mac then Some dev else None
      end
  end.

(** The coordinate the geo index gives an id, from the features of the
    accounts and of the network sites. *)
Definition geo_lookup {Coord : Type} (accounts sites : list (GeoFeature Coord)) (k : Z)
  : option Coord :=
  match last_coord k sites with
  | Some c => Some c
  | None => last_coord k accounts
  end.

(** ** The writer (lines 157-174) *)

Definition nl : string := String Str.newline EmptyString.

Definition KML_NAME : string := "aircontrol_locations.kml".

(** The four lines written before the devices are fetched. *)
Definition KML_HEADER : string :=
  ("<?xml version='1.0' encoding='UTF-8'?>" ++ nl)
  ++ ("<kml xmlns='http://earth.google.com/kml/2.1'>" ++ nl)
  ++ ("<Document>" ++ nl)
  ++ ("   <name>" ++ KML_NAME ++ "</name>" ++ nl).

Definition KML_FOOTER : string := ("</Document>" ++ nl) ++ ("</kml>" ++ nl).

Section Writer.

Context {Coord : Type}.
Variable http_get : string -> option Z -> Response Coord.

(** [str(location[0])] and [str(location[1])]: the text of the two
    numbers of a coordinate. *)
Variable str_0 str_1 : Coord -> string.

(** The seven writes of the body of the loop of line 163. *)
Definition placemark (mac : string) (location : Coord) : string :=
  ("   <Placemark>" ++ nl)
  ++ ("       <name>" ++ mac ++ "</name>" ++ nl)
  ++ ("       <description>" ++ mac ++ "</description>" ++ nl)
  ++ ("       <Point>" ++ nl)
  ++ ("           <coordinates>" ++ str_0 location ++ "," ++ str_1 location
        ++ "</coordinates>" ++ nl)
  ++ ("       </Point>" ++ nl)
  ++ ("   </Placemark>" ++ nl).

(** The script's main part.  The result carries the text of
    [aircontrol_locations.kml] when the [with] block is left: the file is
    opened and its first four lines are written before
    [match_coordinates_to_inventory] is called. *)
Definition main (log : list Request) : result unit * list Request * string :=
  let kmlfile := KML_HEADER in
  match match_coordinates_to_inventory http_get log with
  | (Err e, log') => (Err e, log', kmlfile)
  | (Ok matched, log') =>
      let kmlfile :=
        fold_left (fun text entry => text ++ placemark (fst entry) (snd entry))
                  matched kmlfile in
      (Ok tt, log', kmlfile ++ KML_FOOTER)
  end.


End Writer.

(** ** A service that fails *)

Module Faulty.

(** Three pages of models are announced, and page 1 answers 503. *)
Definition http_get (url : string) (page : option Z) : Response (Z * Z) :=
  if String.eqb url MODELS_URL
  then match page with
       | Some 1 => {| status_code := 503; json := FeatureCollection [] |}
       | _ => {| status_code := 200; json := ModelsPage 3 Sample.models |}
       end
  else Sample.two_pages url page.

(** The accounts are refused; the rest is [Sample.http_get]. *)
Definition no_accounts (url : string) (page : option Z) : Response (Z * Z) :=
  if String.eqb url ACCOUNTS_URL
  then {| status_code := 401; json := FeatureCollection [] |}
  else Sample.http_get url page.

(** Nothing is served. *)
Definition down (url : string) (page : option Z) : Response (Z * Z) :=
  {| status_code := 500; json := FeatureCollection [] |}.

(** The paged resources announce no page; the rest is [Sample.http_get]. *)
Definition no_pages (url : string) (page : option Z) : Response (Z * Z) :=
  if String.eqb url MODELS_URL
  then {| status_code := 200; json := ModelsPage 0 Sample.models |}
  else if String.eqb url ITEMS_URL
  then {| status_code := 200; json := ItemsPage (-1) Sample.items |}
  else Sample.http_get url page.

(** The only model is of manufacturer 2; the rest is [Sample.http_get]. *)
Definition other_maker (url : string) (page : option Z) : Response (Z * Z) :=
  if String.eqb url MODELS_URL
  then {| status_code := 200;
          json := ModelsPage 1 [ {| model_id := 1; manufacturer_id := 2 |} ] |}
  else Sample.http_get url page.

(** The text of a coordinate of integers, for the samples: one digit. *)
Definition digit (z : Z) : string :=
  String (ascii_of_nat (48 + Z.to_nat z)) EmptyString.

End Faulty.

(** A fact about one character, by running through the 256 characters. *)
Ltac by_cases_on_char c :=
  destruct c as [[] [] [] [] [] [] [] []]; reflexivity.

(** * Properties *)

(** ** The MAC pattern *)

Example is_mac_five_groups : is_mac "AA:BB:CC:DD:EE" = false.
Proof. reflexivity. Qed.

Example is_mac_mixed_separators : is_mac "AA:BB-CC:DD-EE:FF" = true.
Proof. reflexivity. Qed.

Example strip_inner_space : Str.strip "  ab c  " = "ab c".
Proof. reflexivity. Qed.

(** U+2003 EM SPACE in front and U+00A0 NO-BREAK SPACE at the end. *)
Example strip_unicode_space :
  Str.strip (Str.bytes [226; 128; 131]%nat ++ "ab" ++ Str.bytes [194; 160]%nat) = "ab".
Proof. reflexivity. Qed.

(** The last byte of U+00E0 is 160: it is not a NO-BREAK SPACE. *)
Example strip_keeps_a_grave :
  Str.strip ("ab" ++ Str.bytes [195; 160]%nat) = "ab" ++ Str.bytes [195; 160]%nat.
Proof. reflexivity. Qed.

Example upper_ff_ligature : Str.upper ("a" ++ Str.ff_ligature ++ "z") = "AFFZ".
Proof. reflexivity. Qed.

Example is_mac_ff_ligature : is_mac ("AA:BB:CC:DD:EE:" ++ Str.ff_ligature) = true.
Proof. reflexivity. Qed.

Lemma run_HEX k s :
  Re.run HEX (k, s) =
  match s with
  | String c r => if HEX_digit c then [(S k, r)] else []
  | EmptyString => []
  end.
Proof.
  destruct s as [|c r]; [reflexivity|].
  cbn [Re.run HEX snd fst]. unfold Re.in_set, HEX_digit.
  cbn [existsb Re.in_item]. rewrite orb_false_r. reflexivity.
Qed.

Lemma run_SEP k s :
  Re.run SEP (k, s) =
  match s with
  | String c r => if is_separator c then [(S k, r)] else []
  | EmptyString => []
  end.
Proof.
  destruct s as [|c r]; [reflexivity|].
  cbn [Re.run SEP snd fst]. unfold Re.in_set, is_separator, is_colon, is_hyphen.
  cbn [existsb Re.in_item]. rewrite orb_false_r. reflexivity.
Qed.

Lemma run_Seq r1 r2 p : Re.run (Re.Seq r1 r2) p = flat_map (Re.run r2) (Re.run r1 p).
Proof. reflexivity. Qed.

Lemma run_Rep_0 r p : Re.run (Re.Rep 0 r) p = [p].
Proof. reflexivity. Qed.

Lemma run_Rep_S n r p :
  Re.run (Re.Rep (S n) r) p = flat_map (Re.run (Re.Rep n r)) (Re.run r p).
Proof. reflexivity. Qed.

Lemma flat_map_one {A B} (f : A -> list B) (x : A) : flat_map f [x] = f x.
Proof. cbn. apply app_nil_r. Qed.

Lemma run_HEX2 k s :
  Re.run (Re.Rep 2 HEX) (k, s) =
  match s with
  | String a (String b r) => if HEX_digit a && HEX_digit b then [(S (S k), r)] else []
  | _ => []
  end.
Proof.
  rewrite run_Rep_S, run_HEX.
  destruct s as [|a s]; [reflexivity|].
  destruct (HEX_digit a); cbn [andb]; [|destruct s; reflexivity].
  rewrite flat_map_one, run_Rep_S, run_HEX.
  destruct s as [|b r]; [reflexivity|].
  destruct (HEX_digit b); [|reflexivity].
  rewrite flat_map_one. apply run_Rep_0.
Qed.

Lemma run_GROUP k s :
  Re.run GROUP (k, s) =
  match s with
  | String a (String b (String c r)) =>
      if HEX_digit a && HEX_digit b && is_separator c then [(S (S (S k)), r)] else []
  | _ => []
  end.
Proof.
  unfold GROUP. rewrite run_Seq, run_HEX2.
  destruct s as [|a [|b r]]; [reflexivity|reflexivity|].
  destruct (HEX_digit a && HEX_digit b); cbn [andb]; [|destruct r; reflexivity].
  rewrite flat_map_one, run_SEP.
  destruct r as [|c r]; reflexivity.
Qed.

Lemma run_groups n : forall k s,
  nonempty (Re.run (Re.Seq (Re.Rep n GROUP) (Re.Seq (Re.Rep 2 HEX) Re.Eol)) (k, s))
  = groups HEX_digit is_separator Re.at_eol n s.
Proof.
  induction n as [|n IH]; intros k s.
  - rewrite run_Seq, run_Rep_0, flat_map_one, run_Seq, run_HEX2.
    destruct s as [|a [|b r]]; [reflexivity|reflexivity|].
    cbn [groups]. destruct (HEX_digit a && HEX_digit b); [|reflexivity].
    rewrite flat_map_one. cbn. destruct (Re.at_eol r); reflexivity.
  - rewrite run_Seq, run_Rep_S, run_GROUP.
    destruct s as [|a [|b [|c r]]]; try reflexivity.
    + cbn [groups]. rewrite andb_false_r. reflexivity.
    + cbn [groups].
      destruct (HEX_digit a && HEX_digit b); cbn [andb]; [|reflexivity].
      destruct (is_separator c); cbn [andb]; [|reflexivity].
      rewrite flat_map_one, <- run_Seq. apply IH.
Qed.

(** The pattern, read as a test on the text it is given. *)
Lemma MAC_PATTERN_groups s :
  Re.match_ MAC_PATTERN s = groups HEX_digit is_separator Re.at_eol 5 s.
Proof.
  rewrite <- (run_groups 5 0 s).
  unfold Re.match_, MAC_PATTERN. rewrite run_Seq.
  change (Re.run Re.Bol (0%nat, s)) with [(0%nat, s)]. rewrite flat_map_one.
  reflexivity.
Qed.

Lemma HEX_digit_upper c : HEX_digit (Str.upper_char c) = hex_digit c.
Proof. by_cases_on_char c. Qed.

Lemma is_separator_upper c : is_separator (Str.upper_char c) = is_separator c.
Proof. by_cases_on_char c. Qed.

Lemma newline_upper c :
  Ascii.eqb (Str.upper_char c) Str.newline = Ascii.eqb c Str.newline.
Proof. by_cases_on_char c. Qed.

Lemma upper_ff a b c r :
  Str.is_ff_ligature a b c = true ->
  Str.upper (String a (String b (String c r))) = String "F" (String "F" (Str.upper r)).
Proof. intros H. cbn [Str.upper]. now rewrite H. Qed.

Lemma upper_not_ff a r :
  starts_ff (String a r) = false ->
  Str.upper (String a r) = String (Str.upper_char a) (Str.upper r).
Proof.
  destruct r as [|b [|c r]]; try reflexivity.
  cbn [starts_ff]. intros H. cbn [Str.upper]. now rewrite H.
Qed.

Lemma ff_not_hex a b c : Str.is_ff_ligature a b c = true -> hex_digit a = false.
Proof.
  destruct a as [[] [] [] [] [] [] [] []]; cbn; intros H; (reflexivity || discriminate H).
Qed.

Lemma ff_not_separator a b c : Str.is_ff_ligature a b c = true -> is_separator a = false.
Proof.
  destruct a as [[] [] [] [] [] [] [] []]; cbn; intros H; (reflexivity || discriminate H).
Qed.

Lemma ff_second a b c : Str.is_ff_ligature a b c = true -> hex_digit b = false.
Proof.
  unfold Str.is_ff_ligature. intros H.
  apply andb_true_iff in H as [H _]. apply andb_true_iff in H as [_ H].
  revert H. destruct b as [[] [] [] [] [] [] [] []]; cbn; intros H;
    (reflexivity || discriminate H).
Qed.

Lemma ff_first_second a b c d :
  Str.is_ff_ligature b c d = true -> Str.is_ff_ligature a b c = false.
Proof.
  unfold Str.is_ff_ligature. intros H.
  apply andb_true_iff in H as [H _]. apply andb_true_iff in H as [H _].
  apply Nat.eqb_eq in H. rewrite H. cbn. now rewrite andb_false_r.
Qed.

Lemma upper_cons a r : exists x y, Str.upper (String a r) = String x y.
Proof.
  destruct r as [|b [|c r]]; cbn [Str.upper]; eauto.
  destruct (Str.is_ff_ligature a b c); eauto.
Qed.

Lemma at_eol_upper s : Re.at_eol (Str.upper s) = Re.at_eol s.
Proof.
  destruct s as [|a [|b r]]; [reflexivity| |].
  - cbn. apply newline_upper.
  - destruct (starts_ff (String a (String b r))) eqn:E.
    + destruct r as [|c r]; [discriminate E|]. now rewrite (upper_ff a b c r E).
    + rewrite (upper_not_ff _ _ E). destruct (upper_cons b r) as (x & y & ->). reflexivity.
Qed.

(** The first group of the upper-cased text, read on the text itself. *)
Lemma first_group_upper (K K' : string -> bool) (s : string) :
  (forall r, K (Str.upper r) = K' r) ->
  (forall y, K (String "F" y) = false) ->
  match Str.upper s with
  | String a (String b r) => HEX_digit a && HEX_digit b && K r
  | _ => false
  end
  = match take_group s with
    | Some r => K' r
    | None => false
    end.
Proof.
  intros HK HF. destruct s as [|a r]; [reflexivity|].
  destruct (starts_ff (String a r)) eqn:E.
  - destruct r as [|b [|c r]]; try discriminate E. cbn [starts_ff] in E.
    rewrite (upper_ff a b c r E). cbn [take_group].
    rewrite (ff_not_hex a b c E), E. cbn. apply HK.
  - rewrite (upper_not_ff _ _ E). destruct r as [|b r2]; [reflexivity|].
    destruct (starts_ff (String b r2)) eqn:E2.
    + destruct r2 as [|c [|d r3]]; try discriminate E2. cbn [starts_ff] in E2.
      rewrite (upper_ff b c d r3 E2), HF, andb_false_r. cbn [take_group].
      rewrite (ff_not_hex b c d E2), andb_false_r.
      now rewrite (ff_first_second a b c d E2).
    + rewrite (upper_not_ff _ _ E2), !HEX_digit_upper, HK. cbn [take_group].
      destruct (hex_digit a && hex_digit b); [reflexivity|].
      destruct r2 as [|c r3]; [reflexivity|]. cbn [starts_ff] in E. now rewrite E.
Qed.

Lemma groups_upper n : forall s,
  groups HEX_digit is_separator Re.at_eol n (Str.upper s)
  = ugroups is_separator Re.at_eol n s.
Proof.
  induction n as [|n IH]; intros s.
  - apply (first_group_upper Re.at_eol Re.at_eol).
    + apply at_eol_upper.
    + intros [|c y]; reflexivity.
  - apply (first_group_upper
             (fun r => match r with
                       | String c r' =>
                           is_separator c && groups HEX_digit is_separator Re.at_eol n r'
                       | EmptyString => false
                       end)
             (fun r => match r with
                       | String c r' => is_separator c && ugroups is_separator Re.at_eol n r'
                       | EmptyString => false
                       end)).
    + intros [|c r]; [reflexivity|].
      destruct (starts_ff (String c r)) eqn:E.
      * destruct r as [|d [|e r]]; try discriminate E. cbn [starts_ff] in E.
        rewrite (upper_ff c d e r E), (ff_not_separator c d e E). reflexivity.
      * rewrite (upper_not_ff _ _ E), is_separator_upper, IH. reflexivity.
    + reflexivity.
Qed.

(** The test of the filter, read on the field value itself. *)
Lemma is_mac_ugroups v : is_mac v = ugroups is_separator Re.at_eol 5 v.
Proof. unfold is_mac. now rewrite MAC_PATTERN_groups, groups_upper. Qed.

Lemma take_group_hex a b r :
  hex_digit a && hex_digit b = true -> take_group (String a (String b r)) = Some r.
Proof. intros H. cbn [take_group]. now rewrite H. Qed.

Lemma take_group_ff a b c r :
  Str.is_ff_ligature a b c = true ->
  take_group (String a (String b (String c r))) = Some r.
Proof.
  intros H. cbn [take_group]. now rewrite (ff_not_hex a b c H), H.
Qed.

Lemma take_group_inv s r :
  take_group s = Some r ->
  (exists a b, s = String a (String b r) /\ hex_digit a && hex_digit b = true)
  \/ (exists a b c, s = String a (String b (String c r))
                     /\ Str.is_ff_ligature a b c = true).
Proof.
  destruct s as [|a [|b r2]]; cbn [take_group]; try discriminate.
  destruct (hex_digit a && hex_digit b) eqn:E.
  - intros H. injection H as <-. left. now exists a, b.
  - destruct r2 as [|c r3]; [discriminate|].
    destruct (Str.is_ff_ligature a b c) eqn:F; [|discriminate].
    intros H. injection H as <-. right. now exists a, b, c.
Qed.

(** What follows the groups is free. *)
Lemma ugroups_app sep n : forall t,
  ugroups sep is_empty n t = true ->
  forall (tail : string -> bool) (s : string), ugroups sep tail n (t ++ s) = tail s.
Proof.
  induction n as [|n IH]; intros t Ht tail s; cbn [ugroups] in Ht |- *;
    destruct (take_group t) as [r|] eqn:Et; try discriminate Ht.
  - destruct r; [|discriminate Ht].
    apply take_group_inv in Et as [(a & b & -> & Hab) | (a & b & c & -> & Hl)];
      cbn [append].
    + now rewrite (take_group_hex a b s Hab).
    + now rewrite (take_group_ff a b c s Hl).
  - destruct r as [|x r]; [discriminate Ht|].
    apply andb_true_iff in Ht as [Hx Hr].
    apply take_group_inv in Et as [(a & b & -> & Hab) | (a & b & c & -> & Hl)];
      cbn [append].
    + rewrite (take_group_hex a b _ Hab), Hx. cbn [andb]. now apply IH.
    + rewrite (take_group_ff a b c _ Hl), Hx. cbn [andb]. now apply IH.
Qed.

Lemma ugroups_prefix sep tail n : forall v,
  ugroups sep tail n v = true ->
  exists t r, v = t ++ r /\ ugroups sep is_empty n t = true /\ tail r = true.
Proof.
  induction n as [|n IH]; intros v Hv; cbn [ugroups] in Hv;
    destruct (take_group v) as [r|] eqn:Et; try discriminate Hv.
  - apply take_group_inv in Et as [(a & b & -> & Hab) | (a & b & c & -> & Hl)].
    + exists (String a (String b EmptyString)), r. split; [reflexivity|].
      split; [|exact Hv]. cbn [ugroups]. now rewrite (take_group_hex a b _ Hab).
    + exists (String a (String b (String c EmptyString))), r. split; [reflexivity|].
      split; [|exact Hv]. cbn [ugroups]. now rewrite (take_group_ff a b c _ Hl).
  - destruct r as [|x r]; [discriminate Hv|].
    apply andb_true_iff in Hv as [Hx Hr].
    apply IH in Hr as (t & r' & -> & Ht & Hr').
    apply take_group_inv in Et as [(a & b & -> & Hab) | (a & b & c & -> & Hl)].
    + exists (String a (String b (String x t))), r'. split; [reflexivity|].
      split; [|exact Hr']. cbn [ugroups].
      now rewrite (take_group_hex a b _ Hab), Hx, Ht.
    + exists (String a (String b (String c (String x t)))), r'. split; [reflexivity|].
      split; [|exact Hr']. cbn [ugroups].
      now rewrite (take_group_ff a b c _ Hl), Hx, Ht.
Qed.

(** Groups of two hex digits are groups of the filter. *)
Lemma groups_ugroups sep tail n : forall v,
  groups hex_digit sep tail n v = true -> ugroups sep tail n v = true.
Proof.
  induction n as [|n IH]; intros [|a [|b r]] Hv; cbn [groups] in Hv; try discriminate.
  - apply andb_true_iff in Hv as [Hab Hr]. cbn [ugroups].
    now rewrite (take_group_hex a b r Hab).
  - apply andb_true_iff in Hv as [Hab Hr]. cbn [ugroups].
    rewrite (take_group_hex a b r Hab). destruct r as [|c r]; [discriminate|].
    apply andb_true_iff in Hr as [Hc Hr]. rewrite Hc. cbn [andb]. now apply IH.
Qed.

Lemma at_eol_iff r :
  Re.at_eol r = true <-> r = EmptyString \/ r = String Str.newline EmptyString.
Proof.
  destruct r as [|c [|d r]]; cbn.
  - split; [now left | reflexivity].
  - rewrite Ascii.eqb_eq. split.
    + intros ->. now right.
    + intros [H|H]; [discriminate | now injection H].
  - split; [discriminate | intros [H|H]; discriminate].
Qed.

Lemma groups_at_eol hex sep n : forall v,
  groups hex sep Re.at_eol n v = true <->
  exists t, groups hex sep is_empty n t = true /\ (v = t \/ v = Str.with_newline t).
Proof.
  induction n as [|n IH]; intros v.
  - split.
    + destruct v as [|a [|b r]]; cbn [groups]; try discriminate.
      intros H. apply andb_true_iff in H as [Hab Hr].
      apply at_eol_iff in Hr.
      exists (String a (String b EmptyString)). cbn [groups is_empty].
      rewrite Hab. split; [reflexivity|].
      destruct Hr as [-> | ->]; [now left | now right].
    + intros (t & Ht & Hv).
      destruct t as [|a [|b r]]; cbn [groups] in Ht; try discriminate.
      apply andb_true_iff in Ht as [Hab Hr].
      destruct r; [|discriminate].
      destruct Hv as [-> | ->]; cbn; rewrite Hab; reflexivity.
  - split.
    + destruct v as [|a [|b [|c r]]]; cbn [groups]; try discriminate.
      { rewrite andb_false_r. discriminate. }
      intros H. apply andb_true_iff in H as [Hab H].
      apply andb_true_iff in H as [Hc H].
      apply IH in H as (t & Ht & Hv).
      exists (String a (String b (String c t))). cbn [groups].
      rewrite Hab, Hc, Ht. split; [reflexivity|].
      destruct Hv as [-> | ->]; [now left | now right].
    + intros (t & Ht & Hv).
      destruct t as [|a [|b [|c r]]]; cbn [groups] in Ht; try discriminate.
      { rewrite andb_false_r in Ht. discriminate. }
      apply andb_true_iff in Ht as [Hab Ht].
      apply andb_true_iff in Ht as [Hc Ht].
      destruct Hv as [-> | ->]; cbn [Str.with_newline append groups];
        rewrite Hab, Hc; cbn [andb]; apply IH; exists r; (split; [exact Ht|]);
        [now left | now right].
Qed.

(** ** Dictionaries *)

Section DictFacts.

Context {K V : Type} `{PyDict.Key K}.

Lemma eqb_refl (k : K) : PyDict.eqb k k = true.
Proof. now apply PyDict.eqb_eq. Qed.

Lemma eqb_neq (k k' : K) : k <> k' -> PyDict.eqb k k' = false.
Proof.
  intros Hn. destruct (PyDict.eqb k k') eqn:E; [|reflexivity].
  apply PyDict.eqb_eq in E. contradiction.
Qed.

Lemma get_set_same (k : K) (v : V) (d : PyDict.t K V) :
  PyDict.get k (PyDict.set k v d) = Some v.
Proof.
  induction d as [|[k' v'] d IH]; cbn.
  - now rewrite eqb_refl.
  - destruct (PyDict.eqb k k') eqn:E; cbn; rewrite E; [reflexivity | exact IH].
Qed.

Lemma get_set_other (k k' : K) (v : V) (d : PyDict.t K V) :
  k' <> k -> PyDict.get k' (PyDict.set k v d) = PyDict.get k' d.
Proof.
  intros Hn. induction d as [|[k0 v0] d IH]; cbn.
  - now rewrite (eqb_neq k' k).
  - destruct (PyDict.eqb k k0) eqn:E; cbn.
    + apply PyDict.eqb_eq in E. subst k0. now rewrite (eqb_neq k' k).
    + now rewrite IH.
Qed.

Lemma get_set (k k' : K) (v : V) (d : PyDict.t K V) :
  PyDict.get k' (PyDict.set k v d) = if PyDict.eqb k' k then Some v else PyDict.get k' d.
Proof.
  destruct (PyDict.eqb k' k) eqn:E.
  - apply PyDict.eqb_eq in E. subst. apply get_set_same.
  - apply get_set_other. intros ->. now rewrite eqb_refl in E.
Qed.

Lemma get_not_in_keys (k : K) (d : PyDict.t K V) :
  ~ In k (PyDict.keys d) -> PyDict.get k d = None.
Proof.
  induction d as [|[k' v'] d IH]; cbn; [reflexivity|].
  intros Hn. rewrite eqb_neq; [apply IH|]; intuition congruence.
Qed.

Lemma in_keys_set (k k' : K) (v : V) (d : PyDict.t K V) :
  In k' (PyDict.keys (PyDict.set k v d)) <-> k' = k \/ In k' (PyDict.keys d).
Proof.
  unfold PyDict.keys.
  induction d as [|[k0 v0] d IH]; cbn.
  - intuition congruence.
  - destruct (PyDict.eqb k k0) eqn:E; cbn.
    + apply PyDict.eqb_eq in E. subst k0. intuition congruence.
    + rewrite IH. intuition congruence.
Qed.

(** The keys of a dictionary are distinct: [set] keeps them so. *)
Lemma NoDup_keys_set (k : K) (v : V) (d : PyDict.t K V) :
  NoDup (PyDict.keys d) -> NoDup (PyDict.keys (PyDict.set k v d)).
Proof.
  induction d as [|[k0 v0] d IH]; cbn; intros Hd.
  - constructor; [intros [] | constructor].
  - inversion Hd as [|? ? Hk0 Hd']; subst.
    destruct (PyDict.eqb k k0) eqn:E; cbn.
    + now constructor.
    + constructor; [|now apply IH].
      intros Hin. apply (in_keys_set k k0 v d) in Hin as [-> | Hin]; [|contradiction].
      now rewrite eqb_refl in E.
Qed.

Lemma get_merge (d2 : PyDict.t K V) : forall (d1 : PyDict.t K V) (k : K),
  NoDup (PyDict.keys d2) ->
  PyDict.get k (PyDict.merge d1 d2) =
  match PyDict.get k d2 with
  | Some v => Some v
  | None => PyDict.get k d1
  end.
Proof.
  unfold PyDict.merge.
  induction d2 as [|[k2 v2] d2 IH]; intros d1 k Hd; cbn [fold_left PyDict.get fst snd].
  - reflexivity.
  - cbn in Hd. inversion Hd as [|? ? Hk2 Hd']; subst.
    rewrite (IH _ _ Hd'), get_set.
    destruct (PyDict.eqb k k2) eqn:E; [|reflexivity].
    apply PyDict.eqb_eq in E. subst k2.
    now rewrite (get_not_in_keys k d2 Hk2).
Qed.

Lemma get_in_keys (k : K) (d : PyDict.t K V) :
  In k (PyDict.keys d) -> exists v, PyDict.get k d = Some v.
Proof.
  induction d as [|[k' v'] d IH]; cbn; [contradiction|].
  intros [-> | Hin].
  - rewrite eqb_refl. now exists v'.
  - destruct (PyDict.eqb k k'); [now exists v' | now apply IH].
Qed.

Lemma get_some_in_keys (k : K) (v : V) (d : PyDict.t K V) :
  PyDict.get k d = Some v -> In k (PyDict.keys d).
Proof.
  induction d as [|[k' v'] d IH]; cbn; [discriminate|].
  destruct (PyDict.eqb k k') eqn:E.
  - apply PyDict.eqb_eq in E. now left.
  - intros Hg. right. now apply IH.
Qed.

End DictFacts.

(** ** The device filter *)

Lemma get_scan_field item macs f k :
  PyDict.get k (scan_field item macs f) =
  if is_mac (field_data f) && (k =? item_id item)
  then Some {| dev_assignee_id := assignee_id item; dev_mac := field_data f |}
  else PyDict.get k macs.
Proof.
  unfold scan_field. destruct (is_mac (field_data f)); cbn [andb]; [|reflexivity].
  rewrite get_set. reflexivity.
Qed.

Lemma get_scan_fields item fs : forall macs,
  PyDict.get (item_id item) (fold_left (scan_field item) fs macs) =
  match last_mac fs with
  | Some m => Some {| dev_assignee_id := assignee_id item; dev_mac := m |}
  | None => PyDict.get (item_id item) macs
  end.
Proof.
  induction fs as [|f fs IH]; intros macs; cbn [fold_left last_mac]; [reflexivity|].
  rewrite IH. destruct (last_mac fs); [reflexivity|].
  rewrite get_scan_field, Z.eqb_refl, andb_true_r.
  destruct (is_mac (field_data f)); reflexivity.
Qed.

Lemma get_scan_fields_other item fs k : k <> item_id item -> forall macs,
  PyDict.get k (fold_left (scan_field item) fs macs) = PyDict.get k macs.
Proof.
  intros Hk. induction fs as [|f fs IH]; intros macs; cbn [fold_left]; [reflexivity|].
  rewrite IH, get_scan_field.
  apply Z.eqb_neq in Hk. rewrite Hk, andb_false_r. reflexivity.
Qed.

Lemma last_mac_none fs :
  Forall (fun g => is_mac (field_data g) = false) fs -> last_mac fs = None.
Proof.
  induction 1 as [|g fs Hg _ IH]; cbn; [reflexivity|].
  now rewrite IH, Hg.
Qed.

Lemma last_mac_split before f after :
  is_mac (field_data f) = true ->
  Forall (fun g => is_mac (field_data g) = false) after ->
  last_mac ((before ++ f :: after)%list) = Some (field_data f).
Proof.
  intros Hf Ha. induction before as [|g before IH]; cbn.
  - now rewrite (last_mac_none after Ha), Hf.
  - now rewrite IH.
Qed.

Lemma scan_item_eligible models macs item :
  eligible models item = true ->
  scan_item models macs item = fold_left (scan_field item) (fields item) macs.
Proof.
  unfold eligible, scan_item. intros H. apply andb_true_iff in H as [-> ->]. reflexivity.
Qed.

Lemma scan_item_excluded models macs item :
  str_in (assignee_type item) EXCLUDED_ASSIGNEES = true ->
  scan_item models macs item = macs.
Proof. unfold scan_item. now intros ->. Qed.

Lemma str_in_In x xs : In x xs -> str_in x xs = true.
Proof.
  intros Hin. apply existsb_exists. exists x. split; [exact Hin | apply String.eqb_refl].
Qed.


Lemma append_empty_r (a : string) : a ++ EmptyString = a.
Proof. induction a as [|x a IH]; cbn; [reflexivity | now rewrite IH]. Qed.

Lemma ugroups_at_eol sep n v :
  ugroups sep Re.at_eol n v = true <->
  exists t, ugroups sep is_empty n t = true /\ (v = t \/ v = Str.with_newline t).
Proof.
  split.
  - intros H. apply ugroups_prefix in H as (t & r & -> & Ht & Hr).
    exists t. split; [exact Ht|].
    apply at_eol_iff in Hr as [-> | ->]; [left; apply append_empty_r | now right].
  - intros (t & Ht & [-> | ->]).
    + rewrite <- (append_empty_r t). now rewrite (ugroups_app sep n t Ht).
    + unfold Str.with_newline. now rewrite (ugroups_app sep n t Ht).
Qed.

Lemma mac48_mac48u v : mac48 v = true -> mac48u v = true.
Proof. apply groups_ugroups. Qed.

Lemma mac48_append_is_mac v s : mac48 v = true -> is_mac (v ++ s) = Re.at_eol s.
Proof.
  intros Hv. rewrite is_mac_ugroups. apply ugroups_app. now apply mac48_mac48u.
Qed.

Lemma mac48_is_mac v : mac48 v = true -> is_mac v = true.
Proof.
  intros Hv. rewrite <- (append_empty_r v). now rewrite (mac48_append_is_mac v _ Hv).
Qed.

Lemma mac48_newline_is_mac v : mac48 v = true -> is_mac (Str.with_newline v) = true.
Proof.
  intros Hv. unfold Str.with_newline. now rewrite (mac48_append_is_mac v _ Hv).
Qed.

(** *** A value that passes has nothing to trim *)

Lemma rev_onto_app a : forall b acc,
  Str.rev_onto (a ++ b) acc = Str.rev_onto b (Str.rev_onto a acc).
Proof. induction a as [|x a IH]; intros b acc; cbn; [reflexivity | apply IH]. Qed.

Lemma rev_onto_rev_onto s : forall a b,
  Str.rev_onto (Str.rev_onto s a) b = Str.rev_onto a (s ++ b).
Proof. induction s as [|x s IH]; intros a b; cbn; [reflexivity | now rewrite IH]. Qed.

Lemma rev_rev s : Str.rev (Str.rev s) = s.
Proof. unfold Str.rev. rewrite rev_onto_rev_onto. cbn. apply append_empty_r. Qed.

Lemma hex_not_space c :
  hex_digit c = true ->
  Str.is_space c = false
  /\ (forall x, Str.is_space2 c x = false) /\ (forall x, Str.is_space2 x c = false)
  /\ (forall x y, Str.is_space3 c x y = false) /\ (forall x y, Str.is_space3 x y c = false).
Proof.
  unfold Str.is_space2, Str.is_space3.
  destruct c as [[] [] [] [] [] [] [] []]; cbn; intros H; try discriminate H;
    repeat split; intros; rewrite ?andb_false_r, ?orb_false_r; reflexivity.
Qed.

Lemma ff_not_space a b c :
  Str.is_ff_ligature a b c = true ->
  Str.is_space a = false
  /\ (forall x, Str.is_space2 a x = false) /\ (forall x y, Str.is_space3 a x y = false)
  /\ Str.is_space c = false
  /\ (forall x, Str.is_space2 x c = false) /\ (forall x, Str.is_space3 x b c = false).
Proof.
  unfold Str.is_ff_ligature. intros H.
  apply andb_true_iff in H as [H Hc]. apply andb_true_iff in H as [Ha Hb].
  apply Nat.eqb_eq in Ha, Hb, Hc.
  unfold Str.is_space, Str.is_space2, Str.is_space3. rewrite Ha, Hb, Hc. cbn.
  repeat split; intros; rewrite ?andb_false_r, ?orb_false_r; reflexivity.
Qed.

Lemma newline_is_space : Str.is_space Str.newline = true.
Proof. reflexivity. Qed.

Lemma strip_front_keep a r :
  Str.is_space a = false ->
  (forall x, Str.is_space2 a x = false) ->
  (forall x y, Str.is_space3 a x y = false) ->
  Str.strip_front false (String a r) = String a r.
Proof.
  intros H1 H2 H3. cbn [Str.strip_front]. rewrite H1.
  destruct r as [|b r]; [reflexivity|]. rewrite H2.
  destruct r as [|c r]; [reflexivity|]. now rewrite H3.
Qed.

Lemma strip_back_keep a r :
  Str.is_space a = false ->
  (forall x, Str.is_space2 x a = false) ->
  (forall x, match r with
             | String b _ => Str.is_space3 x b a = false
             | EmptyString => True
             end) ->
  Str.strip_front true (String a r) = String a r.
Proof.
  intros H1 H2 H3. cbn [Str.strip_front]. rewrite H1.
  destruct r as [|b r]; [reflexivity|]. rewrite H2.
  destruct r as [|c r]; [reflexivity|]. now rewrite (H3 c).
Qed.

Lemma lstrip_ugroups sep n t s :
  ugroups sep is_empty n t = true -> Str.lstrip (t ++ s) = t ++ s.
Proof.
  intros Ht. unfold Str.lstrip.
  assert (Hg : exists r, take_group t = Some r).
  { destruct n; cbn [ugroups] in Ht; destruct (take_group t) as [r|]; eauto; discriminate. }
  destruct Hg as [r Hr].
  apply take_group_inv in Hr as [(a & b & -> & Hab) | (a & b & c & -> & Hl)]; cbn [append].
  - apply andb_true_iff in Hab as [Ha _].
    destruct (hex_not_space a Ha) as (H1 & H2 & _ & H3 & _). now apply strip_front_keep.
  - destruct (ff_not_space a b c Hl) as (H1 & H2 & H3 & _). now apply strip_front_keep.
Qed.

Lemma rstrip_ugroups sep n : forall t acc,
  ugroups sep is_empty n t = true ->
  Str.strip_front true (Str.rev_onto t acc) = Str.rev_onto t acc.
Proof.
  induction n as [|n IH]; intros t acc Ht; cbn [ugroups] in Ht;
    destruct (take_group t) as [r|] eqn:Et; try discriminate Ht.
  - destruct r; [|discriminate Ht].
    apply take_group_inv in Et as [(a & b & -> & Hab) | (a & b & c & -> & Hl)];
      cbn [Str.rev_onto].
    + apply andb_true_iff in Hab as [_ Hb].
      destruct (hex_not_space b Hb) as (H1 & _ & H2 & _ & H3).
      apply strip_back_keep; [exact H1 | exact H2 | intros x; apply H3].
    + destruct (ff_not_space a b c Hl) as (_ & _ & _ & H1 & H2 & H3).
      apply strip_back_keep; [exact H1 | exact H2 | exact H3].
  - destruct r as [|x r]; [discriminate Ht|].
    apply andb_true_iff in Ht as [_ Hr].
    apply take_group_inv in Et as [(a & b & -> & Hab) | (a & b & c & -> & Hl)];
      cbn [Str.rev_onto]; now apply IH.
Qed.

(** A MAC has nothing to trim, and a MAC with a final newline is trimmed
    to the MAC. *)
Lemma mac48u_strip t :
  mac48u t = true -> Str.strip t = t /\ Str.strip (Str.with_newline t) = t.
Proof.
  unfold mac48u. intros Ht. unfold Str.strip, Str.with_newline. split.
  - rewrite <- (append_empty_r t) at 1. rewrite (lstrip_ugroups _ _ t _ Ht), append_empty_r.
    unfold Str.rev at 2. rewrite (rstrip_ugroups _ _ t _ Ht). apply rev_rev.
  - rewrite (lstrip_ugroups _ _ t _ Ht).
    unfold Str.rev at 2. rewrite rev_onto_app. cbn [Str.rev_onto Str.strip_front].
    rewrite newline_is_space.
    change (Str.rev_onto t EmptyString) with (Str.rev t).
    unfold Str.rev at 2. rewrite (rstrip_ugroups _ _ t _ Ht). apply rev_rev.
Qed.

Lemma is_mac_strip v :
  is_mac v = true -> Str.strip v = v \/ v = Str.with_newline (Str.strip v).
Proof.
  rewrite is_mac_ugroups. intros H. apply ugroups_at_eol in H as (t & Ht & Hv).
  destruct (mac48u_strip t Ht) as [H1 H2].
  destruct Hv as [-> | ->]; [left; exact H1 | right; now rewrite H2].
Qed.

Lemma get_scan_item_other models macs item k :
  k <> item_id item -> PyDict.get k (scan_item models macs item) = PyDict.get k macs.
Proof.
  intros Hk. unfold scan_item.
  destruct (negb (str_in (assignee_type item) EXCLUDED_ASSIGNEES)); [|reflexivity].
  destruct (int_in (inventory_model_id item) models); [|reflexivity].
  now apply get_scan_fields_other.
Qed.

Lemma groups_length hex sep n : forall v,
  groups hex sep is_empty n v = true -> String.length v = (3 * n + 2)%nat.
Proof.
  induction n as [|n IH]; intros [|a [|b r]] Hv; cbn [groups] in Hv; try discriminate.
  - apply andb_true_iff in Hv as [_ Hr]. destruct r; [reflexivity | discriminate].
  - apply andb_true_iff in Hv as [_ Hr]. destruct r as [|c r]; [discriminate|].
    apply andb_true_iff in Hr as [_ Hr]. cbn [String.length]. rewrite (IH r Hr). lia.
Qed.

(** Six groups that take 17 bytes are six groups of two hex digits. *)
Lemma ugroups_length sep n : forall v,
  ugroups sep is_empty n v = true ->
  (3 * n + 2 <= String.length v)%nat
  /\ (String.length v = (3 * n + 2)%nat -> groups hex_digit sep is_empty n v = true).
Proof.
  induction n as [|n IH]; intros v Hv; cbn [ugroups] in Hv;
    destruct (take_group v) as [r|] eqn:Et; try discriminate Hv.
  - destruct r; [|discriminate Hv].
    apply take_group_inv in Et as [(a & b & -> & Hab) | (a & b & c & -> & Hl)].
    + split; [cbn; lia|]. intros _. cbn [groups]. now rewrite Hab.
    + split; [cbn; lia|]. cbn. discriminate.
  - destruct r as [|x r]; [discriminate Hv|].
    apply andb_true_iff in Hv as [Hx Hr]. destruct (IH r Hr) as [Hle Heq].
    apply take_group_inv in Et as [(a & b & -> & Hab) | (a & b & c & -> & Hl)].
    + split; [cbn [String.length]; lia|]. intros Hlen. cbn [groups].
      rewrite Hab, Hx. cbn [andb]. apply Heq. cbn [String.length] in Hlen. lia.
    + split; [cbn [String.length]; lia|]. intros Hlen. cbn [String.length] in Hlen. lia.
Qed.

Lemma mac48u_length_17 v :
  mac48u v = true -> String.length v = 17%nat -> mac48 v = true.
Proof. intros Hu Hl. now apply (ugroups_length is_separator 5 v Hu). Qed.

(** C4, as the claim states it, fails: a value that mixes colons and
    hyphens passes the MAC test although its separators are not
    consistent. *)
Lemma mixed_separators_accepted :
  is_mac "AA:BB-CC:DD-EE:FF" = true /\ mac48_consistent "AA:BB-CC:DD-EE:FF" = false
  /\ ~ (forall v, is_mac v = true <-> mac48_consistent v = true).
Proof.
  split; [reflexivity|]. split; [reflexivity|].
  intros H. destruct (H "AA:BB-CC:DD-EE:FF") as [H1 _].
  specialize (H1 eq_refl). discriminate H1.
Qed.

(** C4, amended: the MAC pattern accepts exactly the texts made of six
    groups of two hex digits [0-9A-F] joined by five separators, each of
    them a colon or a hyphen whatever the others are, with possibly one
    newline after the last group.  The filter gives it the upper-cased
    field value, and so accepts exactly the values made of six groups,
    each of them two hex digits of either case or the one character
    U+FB00 (whose upper-case is FF), joined and ended in the same way.
    "AA:BB:CC:DD:EE:FF" and "aa-bb-cc-dd-ee-ff" pass, "AA:BB:CC:DD:EE"
    does not. *)
Theorem mac_test_accepts (v : string) :
  (Re.match_ MAC_PATTERN v = true <->
   exists t, groups HEX_digit is_separator is_empty 5 t = true
             /\ (v = t \/ v = Str.with_newline t))
  /\ (is_mac v = true <->
      exists t, mac48u t = true /\ (v = t \/ v = Str.with_newline t))
  /\ (mac48 v = true <-> mac48u v = true /\ String.length v = 17%nat)
  /\ is_mac "AA:BB:CC:DD:EE:FF" = true
  /\ is_mac "aa-bb-cc-dd-ee-ff" = true
  /\ is_mac "AA:BB:CC:DD:EE" = false
  /\ is_mac ("aa:BB-cc:DD-ee:" ++ Str.ff_ligature) = true.
Proof.
  split; [|split; [|split; [|repeat split]]].
  - rewrite MAC_PATTERN_groups. apply groups_at_eol.
  - rewrite is_mac_ugroups. apply ugroups_at_eol.
  - split.
    + intros Hv. split; [now apply mac48_mac48u | exact (groups_length _ _ 5 v Hv)].
    + intros [Hu Hl]. now apply mac48u_length_17.
Qed.

(** C1, as the claim states it, fails: on the fields of the
    specification's example the mac that is kept is the one of the third
    field, not the one of the first matching field. *)
Lemma first_match_not_kept :
  let item := Sample.item10 Sample.three_fields "account" in
  eligible [1] item = true
  /\ (1 < mac_count (fields item))%nat
  /\ first_mac (fields item) = Some "AA:BB:CC:DD:EE:FF"
  /\ kept_mac (item_id item) (scan_item [1] PyDict.empty item) = Some "11:22:33:44:55:66"
  /\ kept_mac (item_id item) (scan_item [1] PyDict.empty item) <> first_mac (fields item).
Proof.
  cbv zeta. split; [reflexivity|]. split; [vm_compute; lia|].
  split; [reflexivity|]. split; [reflexivity|]. vm_compute. discriminate.
Qed.

(** C1, amended: for every eligible item with a field that passes the MAC
    test, the filter keeps one device record under the item's id, and its
    mac is the value of the LAST field, in field order, that passes the
    test; the records kept under other ids are left as they were. *)
Theorem last_matching_field_kept
    (models : list Z) (macs : PyDict.t Z Device) (item : InventoryItem)
    (before after : list Field) (f : Field) :
  eligible models item = true ->
  fields item = (before ++ f :: after)%list ->
  is_mac (field_data f) = true ->
  Forall (fun g => is_mac (field_data g) = false) after ->
  PyDict.get (item_id item) (scan_item models macs item)
    = Some {| dev_assignee_id := assignee_id item; dev_mac := field_data f |}
  /\ kept_mac (item_id item) (scan_item models macs item) = last_mac (fields item)
  /\ forall k, k <> item_id item ->
       PyDict.get k (scan_item models macs item) = PyDict.get k macs.
Proof.
  intros He Hf Hm Ha. rewrite (scan_item_eligible _ _ _ He).
  unfold kept_mac. rewrite get_scan_fields, Hf, (last_mac_split _ _ _ Hm Ha).
  split; [reflexivity|]. split; [reflexivity|].
  intros k Hk. rewrite <- Hf. now apply get_scan_fields_other.
Qed.

Lemma last_matching_field_kept_witness :
  let item := Sample.item10 Sample.three_fields "account" in
  let before := [ {| field_data := "not-a-mac" |}; {| field_data := "AA:BB:CC:DD:EE:FF" |} ] in
  let f := {| field_data := "11:22:33:44:55:66" |} in
  (eligible [1] item = true
   /\ fields item = (before ++ [f])%list
   /\ is_mac (field_data f) = true
   /\ (1 < mac_count (fields item))%nat)
  /\ (PyDict.get 10 (scan_item [1] PyDict.empty item)
        = Some {| dev_assignee_id := 100; dev_mac := "11:22:33:44:55:66" |}
      /\ kept_mac 10 (scan_item [1] PyDict.empty item) = last_mac (fields item)
      /\ forall k, k <> 10 ->
           PyDict.get k (scan_item [1] PyDict.empty item) = PyDict.get k PyDict.empty).
Proof.
  cbv zeta. split.
  - repeat split. vm_compute. lia.
  - apply (last_matching_field_kept [1] PyDict.empty
             (Sample.item10 Sample.three_fields "account")
             [ {| field_data := "not-a-mac" |}; {| field_data := "AA:BB:CC:DD:EE:FF" |} ]
             [] {| field_data := "11:22:33:44:55:66" |}).
    + reflexivity.
    + reflexivity.
    + reflexivity.
    + constructor.
Defined.

(** C7, as the claim states it, fails: the value is not trimmed before the
    test.  A MAC with a leading space would pass on its trimmed form, and
    the filter rejects it. *)
Lemma untrimmed_value_rejected :
  is_mac " AA:BB:CC:DD:EE:FF" = false
  /\ is_mac_trimmed " AA:BB:CC:DD:EE:FF" = true
  /\ ~ (forall v, is_mac v = is_mac_trimmed v).
Proof.
  split; [reflexivity|]. split; [reflexivity|].
  intros H. specialize (H " AA:BB:CC:DD:EE:FF"). discriminate H.
Qed.

(** C7, amended: whether a field value passes the MAC test is decided on
    its upper-cased form, and the value is not trimmed: two values with
    the same upper-cased form pass or fail together, so the test is
    case-insensitive, and a value that passes has nothing to trim but,
    at most, one final newline.  When a value passes, the mac stored in
    the device record is the original value itself, casing and separators
    as they were. *)
Theorem mac_test_on_upper_keeps_original
    (v w : string) (item : InventoryItem) (macs : PyDict.t Z Device) :
  Str.upper w = Str.upper v ->
  is_mac v = true ->
  is_mac w = true
  /\ (Str.strip w = w \/ w = Str.with_newline (Str.strip w))
  /\ PyDict.get (item_id item) (scan_field item macs {| field_data := w |})
     = Some {| dev_assignee_id := assignee_id item; dev_mac := w |}.
Proof.
  intros Hu Hv.
  assert (Hw : is_mac w = true) by (unfold is_mac in *; now rewrite Hu).
  split; [exact Hw|]. split; [now apply is_mac_strip|].
  rewrite get_scan_field. cbn [field_data]. now rewrite Hw, Z.eqb_refl.
Qed.

Lemma mac_test_on_upper_keeps_original_witness :
  let item := Sample.item10 [] "account" in
  (Str.upper "aa-bb-cc-dd-ee-ff" = Str.upper "AA-BB-CC-DD-EE-FF"
   /\ is_mac "AA-BB-CC-DD-EE-FF" = true)
  /\ (is_mac "aa-bb-cc-dd-ee-ff" = true
      /\ (Str.strip "aa-bb-cc-dd-ee-ff" = "aa-bb-cc-dd-ee-ff"
          \/ "aa-bb-cc-dd-ee-ff" = Str.with_newline (Str.strip "aa-bb-cc-dd-ee-ff"))
      /\ PyDict.get 10 (scan_field item PyDict.empty {| field_data := "aa-bb-cc-dd-ee-ff" |})
         = Some {| dev_assignee_id := 100; dev_mac := "aa-bb-cc-dd-ee-ff" |}).
Proof.
  cbv zeta. split.
  - split; reflexivity.
  - apply (mac_test_on_upper_keeps_original "AA-BB-CC-DD-EE-FF" "aa-bb-cc-dd-ee-ff"
             (Sample.item10 [] "account") PyDict.empty); reflexivity.
Defined.

(** C8: an item whose assignee type is one of the three excluded
    categories is rejected whatever its model and its fields: scanning it
    leaves the devices as they are, a run of the filter over a sequence
    of items gives what it gives on the sequence without the item, and an
    id that only excluded items carry gets no device.  This holds in
    particular for "vehicles". *)
Theorem excluded_assignee_rejected (models : list Z) (item : InventoryItem) :
  In (assignee_type item) ["generic_inventory_assignees"; "inventory_locations"; "vehicles"] ->
  (forall macs, scan_item models macs item = macs)
  /\ (forall before after macs,
        fold_left (scan_item models) (before ++ item :: after)%list macs
        = fold_left (scan_item models) (before ++ after)%list macs)
  /\ (forall items,
        (forall it, In it items -> item_id it = item_id item ->
                    In (assignee_type it)
                       ["generic_inventory_assignees"; "inventory_locations"; "vehicles"]) ->
        PyDict.get (item_id item) (fold_left (scan_item models) items PyDict.empty) = None).
Proof.
  intros Hin.
  assert (Hs : forall macs, scan_item models macs item = macs).
  { intros macs. apply scan_item_excluded. now apply str_in_In. }
  split; [exact Hs|]. split.
  - intros before after macs. rewrite !fold_left_app. cbn [fold_left]. now rewrite Hs.
  - intros items.
    change (@None Device) with (PyDict.get (item_id item) (@PyDict.empty Z Device)).
    generalize (@PyDict.empty Z Device).
    induction items as [|it items IH]; intros macs Hall; cbn [fold_left]; [reflexivity|].
    rewrite IH by (intros it' Hit'; apply Hall; now right).
    destruct (Z.eq_dec (item_id item) (item_id it)) as [He | Hne].
    + rewrite scan_item_excluded; [reflexivity|].
      apply str_in_In, Hall; [now left | now symmetry].
    + now apply get_scan_item_other.
Qed.

Lemma excluded_assignee_rejected_witness :
  let item := Sample.item10 Sample.three_fields "vehicles" in
  (In (assignee_type item) ["generic_inventory_assignees"; "inventory_locations"; "vehicles"]
   /\ int_in (inventory_model_id item) [1] = true
   /\ last_mac (fields item) = Some "11:22:33:44:55:66")
  /\ (forall macs, scan_item [1] macs item = macs)
  /\ (forall before after macs,
        fold_left (scan_item [1]) (before ++ item :: after)%list macs
        = fold_left (scan_item [1]) (before ++ after)%list macs)
  /\ (forall items,
        (forall it, In it items -> item_id it = item_id item ->
                    In (assignee_type it)
                       ["generic_inventory_assignees"; "inventory_locations"; "vehicles"]) ->
        PyDict.get (item_id item) (fold_left (scan_item [1]) items PyDict.empty) = None).
Proof.
  cbv zeta.
  assert (Hin : In "vehicles"
                  ["generic_inventory_assignees"; "inventory_locations"; "vehicles"]).
  { right. right. left. reflexivity. }
  split; [split; [exact Hin | split; reflexivity]|].
  exact (excluded_assignee_rejected [1] (Sample.item10 Sample.three_fields "vehicles") Hin).
Defined.

(** C10, as the claim states it, fails: when a later field of the item
    passes the MAC test too, the mac kept for the item is the value of
    the later field, not the value with the newline. *)
Lemma trailing_newline_overwritten :
  let v := "aa:bb:cc:dd:ee:ff" in
  let item := Sample.item10 [ {| field_data := Str.with_newline v |};
                              {| field_data := "11:22:33:44:55:66" |} ] "account" in
  mac48 v = true
  /\ eligible [1] item = true
  /\ In {| field_data := Str.with_newline v |} (fields item)
  /\ is_mac (Str.with_newline v) = true
  /\ kept_mac (item_id item) (scan_item [1] PyDict.empty item) = Some "11:22:33:44:55:66"
  /\ kept_mac (item_id item) (scan_item [1] PyDict.empty item) <> Some (Str.with_newline v).
Proof.
  cbv zeta. split; [reflexivity|]. split; [reflexivity|].
  split; [now left|]. split; [reflexivity|]. split; [reflexivity|].
  vm_compute. discriminate.
Qed.

(** C10, amended: a field whose value is a MAC followed by one newline
    passes the MAC test, and the value is stored with its newline: the
    scan of that field puts it under the item's id, and it is the mac
    kept for the item when no later field of the item passes the test (a
    later field that passes takes its place). *)
Theorem trailing_newline_accepted
    (v : string) (models : list Z) (macs : PyDict.t Z Device) (item : InventoryItem)
    (before after : list Field) :
  mac48 v = true ->
  eligible models item = true ->
  fields item = (before ++ {| field_data := Str.with_newline v |} :: after)%list ->
  Forall (fun g => is_mac (field_data g) = false) after ->
  is_mac (Str.with_newline v) = true
  /\ (forall macs',
        PyDict.get (item_id item)
          (scan_field item macs' {| field_data := Str.with_newline v |})
        = Some {| dev_assignee_id := assignee_id item; dev_mac := Str.with_newline v |})
  /\ PyDict.get (item_id item) (scan_item models macs item)
     = Some {| dev_assignee_id := assignee_id item; dev_mac := Str.with_newline v |}.
Proof.
  intros Hv He Hf Ha.
  pose proof (mac48_newline_is_mac v Hv) as Hm.
  split; [exact Hm|]. split.
  - intros macs'. rewrite get_scan_field. cbn [field_data]. now rewrite Hm, Z.eqb_refl.
  - rewrite (scan_item_eligible _ _ _ He), get_scan_fields, Hf.
    now rewrite (last_mac_split before {| field_data := Str.with_newline v |} after Hm Ha).
Qed.

Lemma trailing_newline_accepted_witness :
  let v := "aa:bb:cc:dd:ee:ff" in
  let item := Sample.item10 [ {| field_data := Str.with_newline v |} ] "account" in
  (mac48 v = true /\ eligible [1] item = true)
  /\ (is_mac (Str.with_newline v) = true
      /\ (forall macs',
            PyDict.get 10 (scan_field item macs' {| field_data := Str.with_newline v |})
            = Some {| dev_assignee_id := 100; dev_mac := Str.with_newline v |})
      /\ PyDict.get 10 (scan_item [1] PyDict.empty item)
         = Some {| dev_assignee_id := 100; dev_mac := Str.with_newline v |}).
Proof.
  cbv zeta. split.
  - split; reflexivity.
  - apply (trailing_newline_accepted "aa:bb:cc:dd:ee:ff" [1] PyDict.empty
             (Sample.item10 [ {| field_data := Str.with_newline "aa:bb:cc:dd:ee:ff" |} ]
                            "account")
             [] []).
    + reflexivity.
    + reflexivity.
    + reflexivity.
    + constructor.
Defined.

(** ** URL construction and the fetch *)

Lemma create_url_prefix e :
  create_url e = if prefix "/" e then Ok (BASE_URL ++ e) else Err (URLError e).
Proof.
  unfold create_url. destruct e as [|c r]; [reflexivity|].
  cbn [substring prefix].
  replace (substring 0 0 r) with EmptyString by (destruct r; reflexivity).
  cbn [String.eqb]. destruct (ascii_dec "/" c) as [<- | Hn].
  - destruct r; reflexivity.
  - replace (Ascii.eqb c "/") with false; [reflexivity|].
    symmetry. apply Ascii.eqb_neq. congruence.
Qed.

(** C9: [create_url] raises [URLError] exactly when the endpoint does not
    begin with '/' (the empty endpoint included); otherwise it returns the
    base URL with the endpoint appended, unchanged. *)
Theorem create_url_leading_separator (e : string) :
  ((exists err, create_url e = Err err) <-> prefix "/" e = false)
  /\ (prefix "/" e = false <-> create_url e = Err (URLError e))
  /\ (prefix "/" e = true <-> create_url e = Ok (BASE_URL ++ e))
  /\ (prefix "/" e = true <-> exists r, e = String "/" r)
  /\ create_url "" = Err (URLError "").
Proof.
  rewrite create_url_prefix.
  repeat split.
  - intros [err H]. destruct (prefix "/" e); [discriminate | reflexivity].
  - intros ->. now exists (URLError e).
  - now intros ->.
  - destruct (prefix "/" e); [discriminate | reflexivity].
  - now intros ->.
  - destruct (prefix "/" e); [reflexivity | discriminate].
  - destruct e as [|c r]; cbn [prefix]; [discriminate|].
    destruct (ascii_dec "/" c) as [<- | Hn]; [now exists r | discriminate].
  - intros [r ->]. cbn [prefix]. destruct (ascii_dec "/" "/"); [|congruence].
    destruct r; reflexivity.
Qed.

Section Fetch.

Context {Coord : Type}.
Variable http_get : string -> option Z -> Response Coord.

Lemma bind_ok {A B} (m : M A) (k : A -> M B) log a log1 :
  m log = (Ok a, log1) -> bind m k log = k a log1.
Proof. unfold bind. now intros ->. Qed.

Lemma bind_err {A B} (m : M A) (k : A -> M B) log e log1 :
  m log = (Err e, log1) -> bind m k log = (Err e, log1).
Proof. unfold bind. now intros ->. Qed.

Lemma bind_inv {A B} (m : M A) (k : A -> M B) log b log2 :
  bind m k log = (Ok b, log2) ->
  exists a log1, m log = (Ok a, log1) /\ k a log1 = (Ok b, log2).
Proof.
  unfold bind. destruct (m log) as [[a|e] log1]; [|discriminate].
  intros H. now exists a, log1.
Qed.

Lemma rest_get_answers endpoint url page doc log :
  create_url endpoint = Ok url ->
  answers http_get url page doc ->
  rest_get http_get endpoint page log
  = (Ok doc, (log ++ [{| req_url := url; req_page := page |}])%list).
Proof.
  unfold rest_get, answers, bind, lift. intros -> ->. reflexivity.
Qed.

(** The loop over the pages of a resource: every page is requested once,
    in the order of the page numbers, and the records are consumed in
    that order. *)
Lemma for_each_pages {R Acc : Type} endpoint url (decode : Json Coord -> result (list R))
    (step : Acc -> R -> Acc) (pg : Z -> list R) :
  create_url endpoint = Ok url ->
  forall (ps : list Z) (acc : Acc) log,
  Forall (fun p => exists doc, answers http_get url (Some p) doc /\ decode doc = Ok (pg p)) ps ->
  for_each ps
    (fun acc page =>
       doc <- rest_get http_get endpoint (Some page) ;;
       data <- lift (decode doc) ;;
       ret (fold_left step data acc))
    acc log
  = (Ok (fold_left step (concat (map pg ps)) acc),
     (log ++ map (fun p => {| req_url := url; req_page := Some p |}) ps)%list).
Proof.
  intros Hurl ps. induction ps as [|p ps IH]; intros acc log Hps.
  - cbn. now rewrite app_nil_r.
  - inversion Hps as [|? ? (doc & Hdoc & Hdec) Hps']; subst.
    cbn [for_each map concat].
    rewrite (bind_ok _ _ log (fold_left step (pg p) acc)
               (log ++ [{| req_url := url; req_page := Some p |}])%list).
    + rewrite (IH _ _ Hps'), fold_left_app, <- app_assoc. reflexivity.
    + rewrite (bind_ok _ _ _ _ _ (rest_get_answers _ _ _ _ _ Hurl Hdoc)).
      unfold bind, lift, ret. now rewrite Hdec.
Qed.

Lemma get_all_ubiquiti_models_serves n pg log :
  serves_models http_get MODELS_URL n pg ->
  get_all_ubiquiti_models http_get log
  = (Ok (fold_left scan_model (all_records n pg) []),
     (log ++ pagination_requests MODELS_URL n)%list).
Proof.
  intros [(doc & Hdoc & Hn) Hps]. unfold get_all_ubiquiti_models.
  rewrite (bind_ok _ _ _ _ _ (rest_get_answers "/inventory/models" MODELS_URL None doc log
                                eq_refl Hdoc)).
  rewrite (bind_ok _ _ _ n (log ++ [{| req_url := MODELS_URL; req_page := None |}])%list)
    by (unfold lift; now rewrite Hn).
  rewrite (for_each_pages "/inventory/models" MODELS_URL data_models scan_model pg eq_refl
             _ _ _ Hps).
  unfold pagination_requests, all_records. now rewrite <- app_assoc.
Qed.

Lemma get_all_active_serves n pg m pi log :
  serves_models http_get MODELS_URL n pg ->
  serves_items http_get ITEMS_URL m pi ->
  get_all_active_ubiquiti_inventory_macs http_get log
  = (Ok (fold_left (scan_item (fold_left scan_model (all_records n pg) []))
                   (all_records m pi) PyDict.empty),
     (log ++ pagination_requests MODELS_URL n ++ pagination_requests ITEMS_URL m)%list).
Proof.
  intros Hmodels [(doc & Hdoc & Hm) Hps]. unfold get_all_active_ubiquiti_inventory_macs.
  rewrite (bind_ok _ _ _ _ _ (get_all_ubiquiti_models_serves n pg log Hmodels)).
  rewrite (bind_ok _ _ _ _ _ (rest_get_answers "/inventory/items" ITEMS_URL None doc _
                                eq_refl Hdoc)).
  rewrite (bind_ok _ _ _ m
             ((log ++ pagination_requests MODELS_URL n)
                ++ [{| req_url := ITEMS_URL; req_page := None |}])%list)
    by (unfold lift; now rewrite Hm).
  rewrite (for_each_pages "/inventory/items" ITEMS_URL data_items
             (scan_item (fold_left scan_model (all_records n pg) [])) pi eq_refl _ _ _ Hps).
  unfold pagination_requests, all_records. now rewrite <- !app_assoc.
Qed.

End Fetch.

(** ** Pagination *)

Lemma in_range p n : In p (range n) <-> 0 <= p < n.
Proof.
  unfold range. rewrite in_map_iff. split.
  - intros (i & <- & Hi). apply in_seq in Hi. lia.
  - intros Hp. exists (Z.to_nat p). split; [lia|]. apply in_seq. lia.
Qed.

Lemma NoDup_range n : NoDup (range n).
Proof.
  unfold range. apply Injective_map_NoDup.
  - intros i j Hij. lia.
  - apply seq_NoDup.
Qed.

Lemma fetches_pages url p ps :
  fetches {| req_url := url; req_page := Some p |}
          (map (fun q => {| req_url := url; req_page := Some q |}) ps)
  = count_occ Z.eq_dec ps p.
Proof.
  unfold fetches. induction ps as [|q ps IH]; [reflexivity|].
  cbn [map filter count_occ]. unfold request_eqb at 1. cbn [req_url req_page].
  rewrite String.eqb_refl. cbn [andb].
  destruct (Z.eq_dec q p) as [-> | Hn].
  - rewrite Z.eqb_refl. cbn [length]. now rewrite IH.
  - replace (p =? q) with false by (symmetry; apply Z.eqb_neq; congruence).
    exact IH.
Qed.

Lemma fetches_once url n p :
  0 <= p < n ->
  fetches {| req_url := url; req_page := Some p |} (pagination_requests url n) = 1%nat.
Proof.
  intros Hp. unfold pagination_requests.
  change (fetches ?r (?x :: ?l)) with
    (length (if request_eqb r x then x :: filter (request_eqb r) l
             else filter (request_eqb r) l)).
  unfold request_eqb at 1. cbn [req_url req_page]. rewrite andb_false_r.
  change (length (filter ?f ?l)) with (fetches {| req_url := url; req_page := Some p |} l).
  rewrite fetches_pages.
  apply NoDup_count_occ'; [apply NoDup_range | now apply in_range].
Qed.

(** C6: when a paged resource reports [n] pages, the script requests the
    pages [0 .. n-1] once each, in the order of the page numbers, after
    the request that reads [total_pages], and consumes the records of
    those pages as one sequence, page after page.  This holds for the
    models and for the items. *)
Theorem pagination_in_page_order
    {Coord : Type} (http_get : string -> option Z -> Response Coord)
    (n m : Z) (pg : Z -> list InventoryModel) (pi : Z -> list InventoryItem)
    (log : list Request) :
  serves_models http_get MODELS_URL n pg ->
  serves_items http_get ITEMS_URL m pi ->
  get_all_ubiquiti_models http_get log
  = (Ok (fold_left scan_model (concat (map pg (range n))) []),
     (log ++ pagination_requests MODELS_URL n)%list)
  /\ get_all_active_ubiquiti_inventory_macs http_get log
     = (Ok (fold_left (scan_item (fold_left scan_model (concat (map pg (range n))) []))
                      (concat (map pi (range m))) PyDict.empty),
        (log ++ pagination_requests MODELS_URL n ++ pagination_requests ITEMS_URL m)%list)
  /\ (forall p, 0 <= p < n ->
        fetches {| req_url := MODELS_URL; req_page := Some p |}
                (pagination_requests MODELS_URL n) = 1%nat)
  /\ (forall p, 0 <= p < m ->
        fetches {| req_url := ITEMS_URL; req_page := Some p |}
                (pagination_requests ITEMS_URL m) = 1%nat).
Proof.
  intros Hmodels Hitems. split; [|split; [|split]].
  - now apply get_all_ubiquiti_models_serves.
  - now apply get_all_active_serves.
  - intros p. apply fetches_once.
  - intros p. apply fetches_once.
Qed.

Lemma two_pages_serves_models :
  serves_models Sample.two_pages MODELS_URL 2
    (fun p => match p with
              | 1 => [ {| model_id := 7; manufacturer_id := 2 |};
                       {| model_id := 8; manufacturer_id := 1 |} ]
              | _ => Sample.models
              end).
Proof.
  split.
  - eexists. split; reflexivity.
  - repeat constructor; eexists; split; reflexivity.
Qed.

Lemma two_pages_serves_items :
  serves_items Sample.two_pages ITEMS_URL 2
    (fun p => match p with
              | 1 => [ Sample.item10 Sample.three_fields "vehicles" ]
              | _ => [ Sample.item10 Sample.three_fields "accounts" ]
              end).
Proof.
  split.
  - eexists. split; reflexivity.
  - repeat constructor; eexists; split; reflexivity.
Qed.

Lemma pagination_in_page_order_witness :
  (serves_models Sample.two_pages MODELS_URL 2
     (fun p => match p with
               | 1 => [ {| model_id := 7; manufacturer_id := 2 |};
                        {| model_id := 8; manufacturer_id := 1 |} ]
               | _ => Sample.models
               end)
   /\ serves_items Sample.two_pages ITEMS_URL 2
        (fun p => match p with
                  | 1 => [ Sample.item10 Sample.three_fields "vehicles" ]
                  | _ => [ Sample.item10 Sample.three_fields "accounts" ]
                  end))
  /\ (get_all_ubiquiti_models Sample.two_pages []
      = (Ok [1; 8], pagination_requests MODELS_URL 2)
      /\ get_all_active_ubiquiti_inventory_macs Sample.two_pages []
         = (Ok [(10, {| dev_assignee_id := 100; dev_mac := "11:22:33:44:55:66" |})],
            (pagination_requests MODELS_URL 2 ++ pagination_requests ITEMS_URL 2)%list)
      /\ (forall p, 0 <= p < 2 ->
            fetches {| req_url := MODELS_URL; req_page := Some p |}
                    (pagination_requests MODELS_URL 2) = 1%nat)
      /\ (forall p, 0 <= p < 2 ->
            fetches {| req_url := ITEMS_URL; req_page := Some p |}
                    (pagination_requests ITEMS_URL 2) = 1%nat)).
Proof.
  split.
  - split; [exact two_pages_serves_models | exact two_pages_serves_items].
  - exact (pagination_in_page_order Sample.two_pages 2 2 _ _ []
             two_pages_serves_models two_pages_serves_items).
Defined.

(** ** The geo index *)

Section Geo.

Context {Coord : Type}.
Variable http_get : string -> option Z -> Response Coord.

Lemma NoDup_keys_fold_set (geojson : list (GeoFeature Coord)) :
  forall d : PyDict.t Z Coord,
  NoDup (PyDict.keys d) ->
  NoDup (PyDict.keys
           (fold_left (fun d point =>
                         PyDict.set (properties_id point) (geometry_coordinates point) d)
                      geojson d)).
Proof.
  induction geojson as [|point geojson IH]; intros d Hd; cbn [fold_left]; [exact Hd|].
  apply IH. now apply NoDup_keys_set.
Qed.

Lemma NoDup_keys_index_features (geojson : list (GeoFeature Coord)) :
  NoDup (PyDict.keys (index_features geojson)).
Proof. apply NoDup_keys_fold_set. constructor. Qed.

Lemma network_sites_index log sites log' :
  get_all_network_sites_coordinates http_get log = (Ok sites, log') ->
  exists geojson, sites = index_features geojson.
Proof.
  unfold get_all_network_sites_coordinates. intros H.
  apply bind_inv in H as (doc & l1 & _ & H).
  apply bind_inv in H as (geojson & l2 & _ & H).
  exists geojson. unfold ret in H. congruence.
Qed.

Lemma get_all_coordinates_merge log accounts log1 sites log2 :
  get_all_accounts_coordinates http_get log = (Ok accounts, log1) ->
  get_all_network_sites_coordinates http_get log1 = (Ok sites, log2) ->
  get_all_coordinates http_get log = (Ok (PyDict.merge accounts sites), log2).
Proof.
  intros Ha Hs. unfold get_all_coordinates.
  rewrite (bind_ok _ _ _ _ _ Ha), (bind_ok _ _ _ _ _ Hs). reflexivity.
Qed.

Lemma features_answers endpoint url geojson log :
  create_url endpoint = Ok url ->
  answers http_get url None (FeatureCollection geojson) ->
  (doc <- rest_get http_get endpoint None ;;
   geojson <- lift (get_features doc) ;;
   ret (index_features geojson)) log
  = (Ok (index_features geojson), (log ++ [{| req_url := url; req_page := None |}])%list).
Proof.
  intros Hurl Hdoc.
  rewrite (bind_ok _ _ _ _ _ (rest_get_answers http_get _ _ _ _ _ Hurl Hdoc)).
  reflexivity.
Qed.

End Geo.

(** C5: the geo index is the dictionary of the accounts overlaid by the
    dictionary of the network sites: an id that the network sites have
    gets their coordinate, whatever the accounts say, and any other id
    keeps the coordinate of the accounts.  Merging {1: (1,1)} with
    {1: (2,2)} gives {1: (2,2)}. *)
Theorem geo_index_sites_over_accounts
    {Coord : Type} (http_get : string -> option Z -> Response Coord)
    (log log1 log2 : list Request) (accounts sites : PyDict.t Z Coord) :
  get_all_accounts_coordinates http_get log = (Ok accounts, log1) ->
  get_all_network_sites_coordinates http_get log1 = (Ok sites, log2) ->
  get_all_coordinates http_get log = (Ok (PyDict.merge accounts sites), log2)
  /\ (forall k c, PyDict.get k sites = Some c ->
        PyDict.get k (PyDict.merge accounts sites) = Some c)
  /\ (forall k, PyDict.get k sites = None ->
        PyDict.get k (PyDict.merge accounts sites) = PyDict.get k accounts)
  /\ PyDict.merge [(1, (1, 1))] [(1, (2, 2))] = [(1, (2, 2))].
Proof.
  intros Ha Hs.
  destruct (network_sites_index _ _ _ _ Hs) as [geojson Hg].
  assert (Hnd : NoDup (PyDict.keys sites))
    by (rewrite Hg; apply NoDup_keys_index_features).
  split; [exact (get_all_coordinates_merge http_get log accounts log1 sites log2 Ha Hs)|].
  split; [|split; [|reflexivity]].
  - intros k c Hk. now rewrite (get_merge sites accounts k Hnd), Hk.
  - intros k Hk. now rewrite (get_merge sites accounts k Hnd), Hk.
Qed.

Lemma geo_index_sites_over_accounts_witness :
  let log1 := [ {| req_url := ACCOUNTS_URL; req_page := None |} ] in
  let log2 := (log1 ++ [ {| req_url := SITES_URL; req_page := None |} ])%list in
  (get_all_accounts_coordinates Sample.two_pages [] = (Ok [(1, (1, 1))], log1)
   /\ get_all_network_sites_coordinates Sample.two_pages log1 = (Ok [(1, (2, 2))], log2))
  /\ get_all_coordinates Sample.two_pages [] = (Ok [(1, (2, 2))], log2).
Proof.
  cbv zeta. split.
  - split; reflexivity.
  - apply (geo_index_sites_over_accounts Sample.two_pages []
             [ {| req_url := ACCOUNTS_URL; req_page := None |} ]
             [ {| req_url := ACCOUNTS_URL; req_page := None |};
               {| req_url := SITES_URL; req_page := None |} ]
             [(1, (1, 1))] [(1, (2, 2))]); reflexivity.
Defined.

(** ** The join *)

Section Join.

Context {Coord : Type}.
Variable http_get : string -> option Z -> Response Coord.

Lemma join_missing (macs : PyDict.t Z Device) (coordinates : PyDict.t Z Coord) :
  forall (keys : list Z) (matched : PyDict.t string Coord) (log : list Request),
  (forall k, In k keys -> exists dev, PyDict.get k macs = Some dev) ->
  (exists item dev, In item keys /\ PyDict.get item macs = Some dev
                    /\ PyDict.get (dev_assignee_id dev) coordinates = None) ->
  exists k,
    for_each keys (fun matched item => lift (join_step macs coordinates matched item))
             matched log
    = (Err (KeyError (KInt k)), log)
    /\ PyDict.get k coordinates = None.
Proof.
  induction keys as [|k0 keys IH]; intros matched log Hkeys (item & dev & Hin & Hdev & Hmiss).
  - destruct Hin.
  - destruct (Hkeys k0 (or_introl eq_refl)) as [dev0 Hdev0].
    cbn [for_each]. unfold bind at 1, lift at 1, join_step at 1. rewrite Hdev0.
    destruct (PyDict.get (dev_assignee_id dev0) coordinates) as [c|] eqn:Hc.
    + apply IH.
      * intros k Hk. apply Hkeys. now right.
      * exists item, dev. split; [|now split].
        destruct Hin as [-> | Hin]; [|exact Hin].
        rewrite Hdev0 in Hdev. injection Hdev as ->. congruence.
    + now exists (dev_assignee_id dev0).
Qed.

Lemma join_missing_key (macs : PyDict.t Z Device) (coordinates : PyDict.t Z Coord)
    (item : Z) (dev : Device) (log : list Request) :
  PyDict.get item macs = Some dev ->
  PyDict.get (dev_assignee_id dev) coordinates = None ->
  exists k, join macs coordinates log = (Err (KeyError (KInt k)), log)
            /\ PyDict.get k coordinates = None.
Proof.
  intros Hdev Hmiss. unfold join. apply join_missing.
  - intros k Hk. now apply get_in_keys.
  - exists item, dev. split; [|now split]. now apply (get_some_in_keys item dev).
Qed.

End Join.

(** C3: when a device that the filter kept has an assignee id that the
    geo index does not have, the run ends with the [KeyError] of the
    lookup: there is no output mapping, and no request is made after the
    ones that built the devices and the geo index. *)
Theorem missing_assignee_aborts
    {Coord : Type} (http_get : string -> option Z -> Response Coord)
    (log log1 log2 : list Request)
    (macs : PyDict.t Z Device) (coordinates : PyDict.t Z Coord)
    (item : Z) (dev : Device) :
  get_all_active_ubiquiti_inventory_macs http_get log = (Ok macs, log1) ->
  get_all_coordinates http_get log1 = (Ok coordinates, log2) ->
  PyDict.get item macs = Some dev ->
  PyDict.get (dev_assignee_id dev) coordinates = None ->
  exists k,
    match_coordinates_to_inventory http_get log = (Err (KeyError (KInt k)), log2)
    /\ PyDict.get k coordinates = None.
Proof.
  intros Hmacs Hcoords Hdev Hmiss. unfold match_coordinates_to_inventory.
  rewrite (bind_ok _ _ _ _ _ Hmacs), (bind_ok _ _ _ _ _ Hcoords).
  now apply (join_missing_key macs coordinates item dev).
Qed.

Lemma missing_assignee_aborts_witness :
  let log1 := (pagination_requests MODELS_URL 2 ++ pagination_requests ITEMS_URL 2)%list in
  let log2 := (log1 ++ [ {| req_url := ACCOUNTS_URL; req_page := None |};
                         {| req_url := SITES_URL; req_page := None |} ])%list in
  let dev := {| dev_assignee_id := 100; dev_mac := "11:22:33:44:55:66" |} in
  (get_all_active_ubiquiti_inventory_macs Sample.two_pages [] = (Ok [(10, dev)], log1)
   /\ get_all_coordinates Sample.two_pages log1 = (Ok [(1, (2, 2))], log2)
   /\ PyDict.get 10 [(10, dev)] = Some dev
   /\ PyDict.get 100 [(1, (2, 2))] = None)
  /\ exists k,
       match_coordinates_to_inventory Sample.two_pages [] = (Err (KeyError (KInt k)), log2)
       /\ PyDict.get k [(1, (2, 2))] = None.
Proof.
  cbv zeta. split.
  - repeat split.
  - apply (missing_assignee_aborts Sample.two_pages []
             (pagination_requests MODELS_URL 2 ++ pagination_requests ITEMS_URL 2)%list
             ((pagination_requests MODELS_URL 2 ++ pagination_requests ITEMS_URL 2)
                ++ [ {| req_url := ACCOUNTS_URL; req_page := None |};
                     {| req_url := SITES_URL; req_page := None |} ])%list
             [(10, {| dev_assignee_id := 100; dev_mac := "11:22:33:44:55:66" |})]
             [(1, (2, 2))] 10
             {| dev_assignee_id := 100; dev_mac := "11:22:33:44:55:66" |});
      reflexivity.
Defined.

(** C2: when the models are [{id: 1, manufacturer_id: 1}], the only item
    is item 10 of the specification (assignee 100, model 1, one field
    "AA:BB:CC:DD:EE:FF"), the accounts' features are [{id: 100, coord}]
    and there is no network site, the run returns the one-entry mapping
    {"AA:BB:CC:DD:EE:FF": coord}; with coord = (5, 6) this is the example
    of the specification. *)
Theorem end_to_end_one_device
    {Coord : Type} (http_get : string -> option Z -> Response Coord)
    (n m : Z) (pg : Z -> list InventoryModel) (pi : Z -> list InventoryItem)
    (coord : Coord) (log : list Request) :
  serves_models http_get MODELS_URL n pg ->
  all_records n pg = [ {| model_id := 1; manufacturer_id := 1 |} ] ->
  serves_items http_get ITEMS_URL m pi ->
  all_records m pi
  = [ {| item_id := 10; assignee_type := "account"; assignee_id := 100;
         inventory_model_id := 1;
         fields := [ {| field_data := "AA:BB:CC:DD:EE:FF" |} ] |} ] ->
  answers http_get ACCOUNTS_URL None
    (FeatureCollection [ {| properties_id := 100; geometry_coordinates := coord |} ]) ->
  answers http_get SITES_URL None (FeatureCollection []) ->
  match_coordinates_to_inventory http_get log
  = (Ok [("AA:BB:CC:DD:EE:FF", coord)],
     (log ++ pagination_requests MODELS_URL n ++ pagination_requests ITEMS_URL m
          ++ [ {| req_url := ACCOUNTS_URL; req_page := None |};
               {| req_url := SITES_URL; req_page := None |} ])%list).
Proof.
  intros Hmodels Hpg Hitems Hpi Haccounts Hsites.
  unfold match_coordinates_to_inventory.
  rewrite (bind_ok _ _ _ _ _ (get_all_active_serves http_get n pg m pi log Hmodels Hitems)).
  rewrite Hpg, Hpi.
  pose proof (features_answers http_get "/mapping/geojson/accounts" ACCOUNTS_URL _
                (log ++ pagination_requests MODELS_URL n ++ pagination_requests ITEMS_URL m)
                eq_refl Haccounts) as Ha.
  pose proof (features_answers http_get "/mapping/geojson/network_sites" SITES_URL _
                ((log ++ pagination_requests MODELS_URL n ++ pagination_requests ITEMS_URL m)
                   ++ [ {| req_url := ACCOUNTS_URL; req_page := None |} ])
                eq_refl Hsites) as Hs.
  rewrite (bind_ok _ _ _ _ _ (get_all_coordinates_merge http_get _ _ _ _ _ Ha Hs)).
  rewrite <- !app_assoc. reflexivity.
Qed.

Lemma end_to_end_one_device_witness :
  (serves_models Sample.http_get MODELS_URL 1 (fun _ => Sample.models)
   /\ all_records 1 (fun _ : Z => Sample.models) = Sample.models
   /\ serves_items Sample.http_get ITEMS_URL 1 (fun _ => Sample.items)
   /\ all_records 1 (fun _ : Z => Sample.items) = Sample.items
   /\ answers Sample.http_get ACCOUNTS_URL None (FeatureCollection Sample.accounts)
   /\ answers Sample.http_get SITES_URL None (FeatureCollection []))
  /\ match_coordinates_to_inventory Sample.http_get []
     = (Ok [("AA:BB:CC:DD:EE:FF", (5, 6))],
        (pagination_requests MODELS_URL 1 ++ pagination_requests ITEMS_URL 1
           ++ [ {| req_url := ACCOUNTS_URL; req_page := None |};
                {| req_url := SITES_URL; req_page := None |} ])%list).
Proof.
  assert (Hm : serves_models Sample.http_get MODELS_URL 1 (fun _ => Sample.models)).
  { split; [eexists; split; reflexivity|].
    repeat constructor; eexists; split; reflexivity. }
  assert (Hi : serves_items Sample.http_get ITEMS_URL 1 (fun _ => Sample.items)).
  { split; [eexists; split; reflexivity|].
    repeat constructor; eexists; split; reflexivity. }
  split.
  - repeat split; try reflexivity; [apply Hm | apply Hm | apply Hi | apply Hi].
  - apply (end_to_end_one_device Sample.http_get 1 1 (fun _ => Sample.models)
             (fun _ => Sample.items) (5, 6) []); try reflexivity; assumption.
Defined.

(** * Further properties *)

(** ** The fetch *)

Lemma rest_get_not_200
    {Coord : Type} (http_get : string -> option Z -> Response Coord)
    (endpoint url : string) (page : option Z) (log : list Request) :
  create_url endpoint = Ok url ->
  status_code (http_get url page) <> 200 ->
  rest_get http_get endpoint page log
  = (Err (APIError "GET" url (status_code (http_get url page))),
     (log ++ [{| req_url := url; req_page := page |}])%list).
Proof.
  intros Hu Hs. unfold rest_get, bind, lift. rewrite Hu.
  apply Z.eqb_neq in Hs. rewrite Hs. reflexivity.
Qed.

(** X1: an endpoint without its leading '/' makes [rest_get] raise
    [URLError] before anything is sent: the log of requests is left as
    it was. *)
Theorem rest_get_malformed_endpoint
    {Coord : Type} (http_get : string -> option Z -> Response Coord)
    (endpoint : string) (page : option Z) (log : list Request) :
  prefix "/" endpoint = false ->
  rest_get http_get endpoint page log = (Err (URLError endpoint), log).
Proof.
  intros Hp. unfold rest_get, bind, lift. rewrite create_url_prefix, Hp. reflexivity.
Qed.

Lemma rest_get_malformed_endpoint_witness :
  prefix "/" "inventory/items" = false
  /\ rest_get Sample.http_get "inventory/items" (Some 0) []
     = (Err (URLError "inventory/items"), []).
Proof.
  split; [reflexivity|].
  apply (rest_get_malformed_endpoint Sample.http_get "inventory/items" (Some 0) []).
  reflexivity.
Defined.

(** X2: on a well-formed endpoint [rest_get] sends one request to the
    base URL followed by the endpoint; an answer whose status is not 200
    makes it raise [APIError] with action GET, that URL and that status,
    whatever the body is. *)
Theorem rest_get_refused
    {Coord : Type} (http_get : string -> option Z -> Response Coord)
    (endpoint : string) (page : option Z) (log : list Request) :
  prefix "/" endpoint = true ->
  status_code (http_get (BASE_URL ++ endpoint) page) <> 200 ->
  rest_get http_get endpoint page log
  = (Err (APIError "GET" (BASE_URL ++ endpoint)
                   (status_code (http_get (BASE_URL ++ endpoint) page))),
     (log ++ [{| req_url := BASE_URL ++ endpoint; req_page := page |}])%list).
Proof.
  intros Hp Hs. apply rest_get_not_200; [|exact Hs].
  now rewrite create_url_prefix, Hp.
Qed.

Lemma rest_get_refused_witness :
  (prefix "/" "/inventory/models" = true
   /\ status_code (Faulty.http_get (BASE_URL ++ "/inventory/models") (Some 1)) <> 200)
  /\ rest_get Faulty.http_get "/inventory/models" (Some 1) []
     = (Err (APIError "GET" MODELS_URL 503),
        [{| req_url := MODELS_URL; req_page := Some 1 |}]).
Proof.
  split.
  - split; [reflexivity | vm_compute; discriminate].
  - apply (rest_get_refused Faulty.http_get "/inventory/models" (Some 1) []).
    + reflexivity.
    + vm_compute. discriminate.
Defined.

(** ** The index of a feature collection *)

Section IndexFacts.

Context {Coord : Type}.

Lemma get_fold_set (geojson : list (GeoFeature Coord)) : forall (d : PyDict.t Z Coord) k,
  PyDict.get k
    (fold_left (fun d point =>
                  PyDict.set (properties_id point) (geometry_coordinates point) d)
               geojson d)
  = match last_coord k geojson with
    | Some c => Some c
    | None => PyDict.get k d
    end.
Proof.
  induction geojson as [|point geojson IH]; intros d k; cbn [fold_left last_coord].
  - reflexivity.
  - rewrite IH. destruct (last_coord k geojson); [reflexivity|].
    rewrite get_set. cbn [PyDict.eqb PyDict.Key_Z]. rewrite (Z.eqb_sym k).
    now destruct (properties_id point =? k).
Qed.

Lemma in_keys_fold_set (geojson : list (GeoFeature Coord)) : forall (d : PyDict.t Z Coord) k,
  In k (PyDict.keys
          (fold_left (fun d point =>
                        PyDict.set (properties_id point) (geometry_coordinates point) d)
                     geojson d))
  <-> In k (map properties_id geojson) \/ In k (PyDict.keys d).
Proof.
  induction geojson as [|point geojson IH]; intros d k; cbn [fold_left map In].
  - tauto.
  - rewrite IH, in_keys_set. intuition congruence.
Qed.

Lemma length_set {K V : Type} `{PyDict.Key K} (k : K) (v : V) (d : PyDict.t K V) :
  (length (PyDict.set k v d) <= S (length d))%nat.
Proof.
  induction d as [|[k' v'] d IH]; cbn; [lia|].
  destruct (PyDict.eqb k k'); cbn; lia.
Qed.

Lemma length_fold_set (geojson : list (GeoFeature Coord)) : forall d : PyDict.t Z Coord,
  (length (fold_left (fun d point =>
                        PyDict.set (properties_id point) (geometry_coordinates point) d)
                     geojson d)
   <= length geojson + length d)%nat.
Proof.
  induction geojson as [|point geojson IH]; intros d; cbn [fold_left length]; [lia|].
  specialize (IH (PyDict.set (properties_id point) (geometry_coordinates point) d)).
  pose proof (length_set (properties_id point) (geometry_coordinates point) d). lia.
Qed.

End IndexFacts.

(** X3: in the dictionary built from a feature collection, an id has the
    coordinate of the LAST feature that carries it, and an id that no
    feature carries is absent. *)
Theorem index_features_last_wins
    {Coord : Type} (geojson : list (GeoFeature Coord)) (k : Z) :
  PyDict.get k (index_features geojson) = last_coord k geojson
  /\ (PyDict.get k (index_features geojson) = None <-> ~ In k (map properties_id geojson)).
Proof.
  assert (Hg : PyDict.get k (index_features geojson) = last_coord k geojson).
  { unfold index_features. rewrite get_fold_set. now destruct (last_coord k geojson). }
  split; [exact Hg|]. split.
  - intros Hn Hin.
    assert (Hk : In k (PyDict.keys (index_features geojson))).
    { unfold index_features. apply in_keys_fold_set. now left. }
    apply get_in_keys in Hk as [c Hc]. congruence.
  - intros Hn. apply get_not_in_keys. intros Hk.
    unfold index_features in Hk. apply in_keys_fold_set in Hk as [Hk | []]. contradiction.
Qed.

(** X4: the dictionary built from a feature collection has one entry for
    each id that occurs, however many features repeat it: its keys are
    distinct, they are the ids of the features, and there are no more
    entries than features. *)
Theorem index_features_keys {Coord : Type} (geojson : list (GeoFeature Coord)) :
  NoDup (PyDict.keys (index_features geojson))
  /\ (forall k, In k (PyDict.keys (index_features geojson))
                <-> In k (map properties_id geojson))
  /\ (length (index_features geojson) <= length geojson)%nat.
Proof.
  split; [apply NoDup_keys_index_features|]. split.
  - intros k. unfold index_features. rewrite in_keys_fold_set. cbn. tauto.
  - unfold index_features. pose proof (length_fold_set geojson (@PyDict.empty Z Coord)) as H.
    cbn [PyDict.empty length] in H. lia.
Qed.

(** ** The geo index *)

Section GeoFacts.

Context {Coord : Type}.
Variable http_get : string -> option Z -> Response Coord.

Lemma NoDup_keys_merge (d2 : PyDict.t Z Coord) : forall d1 : PyDict.t Z Coord,
  NoDup (PyDict.keys d1) -> NoDup (PyDict.keys (PyDict.merge d1 d2)).
Proof.
  unfold PyDict.merge.
  induction d2 as [|[k v] d2 IH]; intros d1 Hd; cbn [fold_left fst snd]; [exact Hd|].
  apply IH. now apply NoDup_keys_set.
Qed.

Lemma length_merge (d2 : PyDict.t Z Coord) : forall d1 : PyDict.t Z Coord,
  (length (PyDict.merge d1 d2) <= length d1 + length d2)%nat.
Proof.
  unfold PyDict.merge.
  induction d2 as [|[k v] d2 IH]; intros d1; cbn [fold_left fst snd length]; [lia|].
  specialize (IH (PyDict.set k v d1)). pose proof (length_set k v d1). lia.
Qed.

Lemma get_all_coordinates_answers accounts sites log :
  answers http_get ACCOUNTS_URL None (FeatureCollection accounts) ->
  answers http_get SITES_URL None (FeatureCollection sites) ->
  get_all_coordinates http_get log
  = (Ok (PyDict.merge (index_features accounts) (index_features sites)),
     (log ++ [ {| req_url := ACCOUNTS_URL; req_page := None |};
               {| req_url := SITES_URL; req_page := None |} ])%list).
Proof.
  intros Ha Hs.
  pose proof (features_answers http_get "/mapping/geojson/accounts" ACCOUNTS_URL _ log
                eq_refl Ha) as Ha'.
  pose proof (features_answers http_get "/mapping/geojson/network_sites" SITES_URL _
                (log ++ [ {| req_url := ACCOUNTS_URL; req_page := None |} ])
                eq_refl Hs) as Hs'.
  rewrite (get_all_coordinates_merge http_get _ _ _ _ _ Ha' Hs').
  now rewrite <- app_assoc.
Qed.

Lemma get_index_features (geojson : list (GeoFeature Coord)) (k : Z) :
  PyDict.get k (index_features geojson) = last_coord k geojson.
Proof.
  unfold index_features. rewrite get_fold_set. now destruct (last_coord k geojson).
Qed.

Lemma get_geo_index (accounts sites : list (GeoFeature Coord)) (k : Z) :
  PyDict.get k (PyDict.merge (index_features accounts) (index_features sites))
  = geo_lookup accounts sites k.
Proof.
  rewrite get_merge by apply NoDup_keys_index_features.
  unfold geo_lookup. now rewrite !get_index_features.
Qed.

End GeoFacts.

(** X5: when both geo endpoints answer with their features, the geo
    index is built with two requests, the accounts first; an id gets the
    coordinate of the last network-site feature that carries it, or else
    of the last account feature that carries it; the keys of the index
    are distinct and it has no more entries than there are features. *)
Theorem geo_index_of_features
    {Coord : Type} (http_get : string -> option Z -> Response Coord)
    (accounts sites : list (GeoFeature Coord)) (log : list Request) :
  answers http_get ACCOUNTS_URL None (FeatureCollection accounts) ->
  answers http_get SITES_URL None (FeatureCollection sites) ->
  exists index,
    get_all_coordinates http_get log
    = (Ok index,
       (log ++ [ {| req_url := ACCOUNTS_URL; req_page := None |};
                 {| req_url := SITES_URL; req_page := None |} ])%list)
    /\ (forall k, PyDict.get k index = geo_lookup accounts sites k)
    /\ NoDup (PyDict.keys index)
    /\ (length index <= length accounts + length sites)%nat.
Proof.
  intros Ha Hs.
  exists (PyDict.merge (index_features accounts) (index_features sites)).
  split; [now apply get_all_coordinates_answers|].
  split; [intros k; apply get_geo_index|].
  split; [apply NoDup_keys_merge, NoDup_keys_index_features|].
  pose proof (length_merge (index_features sites) (index_features accounts)) as Hm.
  pose proof (length_fold_set accounts (@PyDict.empty Z Coord)) as H1.
  pose proof (length_fold_set sites (@PyDict.empty Z Coord)) as H2.
  unfold index_features in *. cbn [PyDict.empty length] in H1, H2. lia.
Qed.

Lemma geo_index_of_features_witness :
  let accounts := [ {| properties_id := 1; geometry_coordinates := (1, 1) |} ] in
  let sites := [ {| properties_id := 1; geometry_coordinates := (2, 2) |} ] in
  (answers Sample.two_pages ACCOUNTS_URL None (FeatureCollection accounts)
   /\ answers Sample.two_pages SITES_URL None (FeatureCollection sites))
  /\ exists index,
       get_all_coordinates Sample.two_pages []
       = (Ok index, [ {| req_url := ACCOUNTS_URL; req_page := None |};
                      {| req_url := SITES_URL; req_page := None |} ])
       /\ (forall k, PyDict.get k index = geo_lookup accounts sites k)
       /\ NoDup (PyDict.keys index)
       /\ (length index <= 1 + 1)%nat.
Proof.
  cbv zeta. split.
  - split; reflexivity.
  - apply (geo_index_of_features Sample.two_pages
             [ {| properties_id := 1; geometry_coordinates := (1, 1) |} ]
             [ {| properties_id := 1; geometry_coordinates := (2, 2) |} ] []);
      reflexivity.
Defined.

(** X6: when the request for the accounts is refused, the geo index
    fails with the [APIError] of that request, and the network sites are
    not requested. *)
Theorem geo_index_accounts_refused
    {Coord : Type} (http_get : string -> option Z -> Response Coord) (log : list Request) :
  status_code (http_get ACCOUNTS_URL None) <> 200 ->
  get_all_coordinates http_get log
  = (Err (APIError "GET" ACCOUNTS_URL (status_code (http_get ACCOUNTS_URL None))),
     (log ++ [ {| req_url := ACCOUNTS_URL; req_page := None |} ])%list).
Proof.
  intros Hs. unfold get_all_coordinates, get_all_accounts_coordinates.
  apply bind_err. apply bind_err.
  exact (rest_get_not_200 http_get "/mapping/geojson/accounts" ACCOUNTS_URL None log
           eq_refl Hs).
Qed.

Lemma geo_index_accounts_refused_witness :
  status_code (Faulty.no_accounts ACCOUNTS_URL None) <> 200
  /\ get_all_coordinates Faulty.no_accounts []
     = (Err (APIError "GET" ACCOUNTS_URL 401),
        [ {| req_url := ACCOUNTS_URL; req_page := None |} ]).
Proof.
  split; [vm_compute; discriminate|].
  apply (geo_index_accounts_refused Faulty.no_accounts []). vm_compute. discriminate.
Defined.

(** ** The model list *)

Lemma fold_scan_model (data : list InventoryModel) : forall models : list Z,
  fold_left scan_model data models = (models ++ ubiquiti_ids data)%list.
Proof.
  unfold ubiquiti_ids.
  induction data as [|model data IH]; intros models; cbn [fold_left filter map].
  - now rewrite app_nil_r.
  - rewrite IH. unfold scan_model. destruct (manufacturer_id model =? 1); cbn [map].
    + now rewrite <- app_assoc.
    + reflexivity.
Qed.

Lemma range_nonpos n : n <= 0 -> range n = [].
Proof.
  intros Hn. unfold range. replace (Z.to_nat n) with 0%nat by lia. reflexivity.
Qed.

Lemma range_succ k : 0 <= k -> range (k + 1) = (range k ++ [k])%list.
Proof.
  intros Hk. unfold range.
  replace (Z.to_nat (k + 1)) with (S (Z.to_nat k)) by lia.
  rewrite seq_S, map_app. cbn [map Nat.add]. now rewrite Z2Nat.id.
Qed.

Lemma range_split k n : 0 <= k < n -> exists after, range n = (range k ++ k :: after)%list.
Proof.
  intros Hk. unfold range.
  replace (Z.to_nat n) with (Z.to_nat k + S (Z.to_nat (n - k - 1)))%nat by lia.
  rewrite seq_app, map_app. cbn [seq map Nat.add].
  rewrite Z2Nat.id by lia. eauto.
Qed.

Section PageFailure.

Context {Coord : Type}.
Variable http_get : string -> option Z -> Response Coord.

(** The loop over the pages stops at the first page that is refused. *)
Lemma for_each_pages_refused {R Acc : Type} endpoint url
    (decode : Json Coord -> result (list R)) (step : Acc -> R -> Acc) (pg : Z -> list R)
    (k : Z) (after : list Z) :
  create_url endpoint = Ok url ->
  status_code (http_get url (Some k)) <> 200 ->
  forall (before : list Z) (acc : Acc) log,
  Forall (fun p => exists doc, answers http_get url (Some p) doc /\ decode doc = Ok (pg p))
         before ->
  for_each (before ++ k :: after)
    (fun acc page =>
       doc <- rest_get http_get endpoint (Some page) ;;
       data <- lift (decode doc) ;;
       ret (fold_left step data acc))
    acc log
  = (Err (APIError "GET" url (status_code (http_get url (Some k)))),
     (log ++ map (fun p => {| req_url := url; req_page := Some p |}) (before ++ [k]))%list).
Proof.
  intros Hurl Hk before. induction before as [|p before IH]; intros acc log Hb.
  - cbn [app for_each map]. apply bind_err. apply bind_err.
    now apply rest_get_not_200.
  - inversion Hb as [|? ? (doc & Hdoc & Hdec) Hb']; subst.
    cbn [app for_each map].
    rewrite (bind_ok _ _ log (fold_left step (pg p) acc)
               (log ++ [{| req_url := url; req_page := Some p |}])%list).
    + rewrite (IH _ _ Hb'), <- app_assoc. reflexivity.
    + rewrite (bind_ok _ _ _ _ _ (rest_get_answers http_get _ _ _ _ _ Hurl Hdoc)).
      unfold bind, lift, ret. now rewrite Hdec.
Qed.

End PageFailure.

(** X7: when the models resource serves its pages, the model list is the
    ids of the models whose manufacturer_id is 1, in the order of the
    pages and of the records within a page, a repeated id repeated. *)
Theorem ubiquiti_models_in_order
    {Coord : Type} (http_get : string -> option Z -> Response Coord)
    (n : Z) (pg : Z -> list InventoryModel) (log : list Request) :
  serves_models http_get MODELS_URL n pg ->
  get_all_ubiquiti_models http_get log
  = (Ok (ubiquiti_ids (all_records n pg)), (log ++ pagination_requests MODELS_URL n)%list)
  /\ (forall k, In k (ubiquiti_ids (all_records n pg)) <->
                exists model, In model (all_records n pg)
                              /\ manufacturer_id model = 1 /\ model_id model = k).
Proof.
  intros Hs. split.
  - rewrite (get_all_ubiquiti_models_serves http_get n pg log Hs), fold_scan_model.
    reflexivity.
  - intros k. unfold ubiquiti_ids. rewrite in_map_iff. split.
    + intros (model & Hid & Hin). apply filter_In in Hin as [Hin Hm].
      exists model. split; [exact Hin|]. split; [now apply Z.eqb_eq | exact Hid].
    + intros (model & Hin & Hm & Hid). exists model. split; [exact Hid|].
      apply filter_In. split; [exact Hin | now apply Z.eqb_eq].
Qed.

Lemma ubiquiti_models_in_order_witness :
  serves_models Sample.two_pages MODELS_URL 2
    (fun p => match p with
              | 1 => [ {| model_id := 7; manufacturer_id := 2 |};
                       {| model_id := 8; manufacturer_id := 1 |} ]
              | _ => Sample.models
              end)
  /\ get_all_ubiquiti_models Sample.two_pages []
     = (Ok [1; 8], pagination_requests MODELS_URL 2).
Proof.
  split; [exact two_pages_serves_models|].
  exact (proj1 (ubiquiti_models_in_order Sample.two_pages 2 _ [] two_pages_serves_models)).
Defined.

(** X8: when the pages before page [k] are served and page [k] is
    refused, the model list fails with the [APIError] of that page; the
    requests made are the one that reads total_pages and those of the
    pages 0 to [k], and no later page is requested. *)
Theorem ubiquiti_models_page_refused
    {Coord : Type} (http_get : string -> option Z -> Response Coord)
    (n k : Z) (pg : Z -> list InventoryModel) (doc : Json Coord) (log : list Request) :
  answers http_get MODELS_URL None doc ->
  paginator_total_pages doc = Ok n ->
  0 <= k < n ->
  Forall (fun p => exists doc, answers http_get MODELS_URL (Some p) doc
                               /\ data_models doc = Ok (pg p))
         (range k) ->
  status_code (http_get MODELS_URL (Some k)) <> 200 ->
  get_all_ubiquiti_models http_get log
  = (Err (APIError "GET" MODELS_URL (status_code (http_get MODELS_URL (Some k)))),
     (log ++ pagination_requests MODELS_URL (k + 1))%list).
Proof.
  intros Hdoc Hn Hk Hb Hs. unfold get_all_ubiquiti_models.
  rewrite (bind_ok _ _ _ _ _ (rest_get_answers http_get "/inventory/models" MODELS_URL
                                None doc log eq_refl Hdoc)).
  rewrite (bind_ok _ _ _ n (log ++ [{| req_url := MODELS_URL; req_page := None |}])%list)
    by (unfold lift; now rewrite Hn).
  destruct (range_split k n Hk) as [after ->].
  rewrite (for_each_pages_refused http_get "/inventory/models" MODELS_URL data_models
             scan_model pg k after eq_refl Hs _ _ _ Hb).
  unfold pagination_requests. rewrite range_succ by lia. now rewrite <- app_assoc.
Qed.

Lemma ubiquiti_models_page_refused_witness :
  (answers Faulty.http_get MODELS_URL None (ModelsPage 3 Sample.models)
   /\ paginator_total_pages (ModelsPage (Coord := Z * Z) 3 Sample.models) = Ok 3
   /\ 0 <= 1 < 3
   /\ status_code (Faulty.http_get MODELS_URL (Some 1)) <> 200)
  /\ get_all_ubiquiti_models Faulty.http_get []
     = (Err (APIError "GET" MODELS_URL 503), pagination_requests MODELS_URL 2).
Proof.
  split.
  - repeat split; try reflexivity; try lia. vm_compute. discriminate.
  - apply (ubiquiti_models_page_refused Faulty.http_get 3 1 (fun _ => Sample.models)
             (ModelsPage 3 Sample.models) []).
    + reflexivity.
    + reflexivity.
    + lia.
    + repeat constructor. eexists. split; reflexivity.
    + vm_compute. discriminate.
Defined.

(** X9: a models resource that reports no page (total_pages zero or
    negative) is read with the one request that reads total_pages, and
    the model list is empty. *)
Theorem ubiquiti_models_no_page
    {Coord : Type} (http_get : string -> option Z -> Response Coord)
    (n : Z) (doc : Json Coord) (log : list Request) :
  answers http_get MODELS_URL None doc ->
  paginator_total_pages doc = Ok n ->
  n <= 0 ->
  get_all_ubiquiti_models http_get log
  = (Ok [], (log ++ [ {| req_url := MODELS_URL; req_page := None |} ])%list).
Proof.
  intros Hdoc Hn Hle. unfold get_all_ubiquiti_models.
  rewrite (bind_ok _ _ _ _ _ (rest_get_answers http_get "/inventory/models" MODELS_URL
                                None doc log eq_refl Hdoc)).
  rewrite (bind_ok _ _ _ n (log ++ [{| req_url := MODELS_URL; req_page := None |}])%list)
    by (unfold lift; now rewrite Hn).
  rewrite (range_nonpos n Hle). reflexivity.
Qed.

Lemma ubiquiti_models_no_page_witness :
  (answers Faulty.no_pages MODELS_URL None (ModelsPage 0 Sample.models)
   /\ paginator_total_pages (ModelsPage (Coord := Z * Z) 0 Sample.models) = Ok 0
   /\ 0 <= 0)
  /\ get_all_ubiquiti_models Faulty.no_pages []
     = (Ok [], [ {| req_url := MODELS_URL; req_page := None |} ]).
Proof.
  split.
  - split; [reflexivity | split; [reflexivity | lia]].
  - apply (ubiquiti_models_no_page Faulty.no_pages 0 (ModelsPage 0 Sample.models) []).
    + reflexivity.
    + reflexivity.
    + lia.
Defined.

(** ** The devices the filter keeps *)

Lemma get_scan_item models macs item k :
  PyDict.get k (scan_item models macs item)
  = if item_id item =? k
    then match item_device models item with
         | Some dev => Some dev
         | None => PyDict.get k macs
         end
    else PyDict.get k macs.
Proof.
  destruct (item_id item =? k) eqn:Ek.
  - apply Z.eqb_eq in Ek. subst k. unfold item_device, scan_item, eligible.
    destruct (negb (str_in (assignee_type item) EXCLUDED_ASSIGNEES)); [|reflexivity].
    destruct (int_in (inventory_model_id item) models); [|reflexivity].
    cbn [andb]. rewrite get_scan_fields. now destruct (last_mac (fields item)).
  - apply get_scan_item_other. apply Z.eqb_neq in Ek. congruence.
Qed.

Lemma get_fold_scan_item models items k : forall macs,
  PyDict.get k (fold_left (scan_item models) items macs)
  = match kept_device models items k with
    | Some dev => Some dev
    | None => PyDict.get k macs
    end.
Proof.
  induction items as [|item items IH]; intros macs; cbn [fold_left kept_device].
  - reflexivity.
  - rewrite IH. destruct (kept_device models items k); [reflexivity|].
    rewrite get_scan_item. destruct (item_id item =? k); [|reflexivity].
    now destruct (item_device models item).
Qed.

Lemma NoDup_keys_scan_item models item (macs : PyDict.t Z Device) :
  NoDup (PyDict.keys macs) -> NoDup (PyDict.keys (scan_item models macs item)).
Proof.
  intros Hd. unfold scan_item.
  destruct (negb (str_in (assignee_type item) EXCLUDED_ASSIGNEES)); [|exact Hd].
  destruct (int_in (inventory_model_id item) models); [|exact Hd].
  revert macs Hd. induction (fields item) as [|f fs IH]; intros macs Hd; cbn [fold_left].
  - exact Hd.
  - apply IH. unfold scan_field. destruct (is_mac (field_data f)); [|exact Hd].
    now apply NoDup_keys_set.
Qed.

Lemma NoDup_keys_fold_scan_item models items : forall macs : PyDict.t Z Device,
  NoDup (PyDict.keys macs) ->
  NoDup (PyDict.keys (fold_left (scan_item models) items macs)).
Proof.
  induction items as [|item items IH]; intros macs Hd; cbn [fold_left]; [exact Hd|].
  apply IH. now apply NoDup_keys_scan_item.
Qed.

Lemma kept_device_item models items k dev :
  kept_device models items k = Some dev ->
  exists item, In item items /\ item_id item = k /\ item_device models item = Some dev.
Proof.
  induction items as [|item items IH]; cbn [kept_device]; [discriminate|].
  destruct (kept_device models items k) as [d|].
  - intros H. destruct (IH H) as (it & Hin & Hit). exists it. split; [now right | exact Hit].
  - destruct (item_id item =? k) eqn:Ek; [|discriminate].
    intros H. exists item. split; [now left|]. split; [now apply Z.eqb_eq | exact H].
Qed.

Lemma item_device_fields models item dev :
  item_device models item = Some dev ->
  eligible models item = true
  /\ dev_assignee_id dev = assignee_id item
  /\ last_mac (fields item) = Some (dev_mac dev).
Proof.
  unfold item_device. destruct (eligible models item); [|discriminate].
  destruct (last_mac (fields item)) as [m|]; cbn; [|discriminate].
  intros H. injection H as <-. now cbn.
Qed.

(** X10: when both paged resources serve their pages, the filter returns
    a dictionary with distinct keys in which an item id has the device of
    the LAST item, in page and record order, that carries this id, is
    eligible for the model list of the run and has a field passing the
    MAC test: the assignee of that item and the value of its last such
    field.  An id with no such item is absent. *)
Theorem active_devices_kept
    {Coord : Type} (http_get : string -> option Z -> Response Coord)
    (n m : Z) (pg : Z -> list InventoryModel) (pi : Z -> list InventoryItem)
    (log : list Request) :
  serves_models http_get MODELS_URL n pg ->
  serves_items http_get ITEMS_URL m pi ->
  exists macs,
    get_all_active_ubiquiti_inventory_macs http_get log
    = (Ok macs,
       (log ++ pagination_requests MODELS_URL n ++ pagination_requests ITEMS_URL m)%list)
    /\ NoDup (PyDict.keys macs)
    /\ (forall k, PyDict.get k macs
                  = kept_device (ubiquiti_ids (all_records n pg)) (all_records m pi) k)
    /\ (forall k dev, PyDict.get k macs = Some dev ->
          exists item, In item (all_records m pi) /\ item_id item = k
                       /\ eligible (ubiquiti_ids (all_records n pg)) item = true
                       /\ dev_assignee_id dev = assignee_id item
                       /\ last_mac (fields item) = Some (dev_mac dev)).
Proof.
  intros Hm Hi.
  exists (fold_left (scan_item (ubiquiti_ids (all_records n pg))) (all_records m pi)
                    PyDict.empty).
  assert (Hget : forall k,
             PyDict.get k (fold_left (scan_item (ubiquiti_ids (all_records n pg)))
                                     (all_records m pi) PyDict.empty)
             = kept_device (ubiquiti_ids (all_records n pg)) (all_records m pi) k).
  { intros k. rewrite get_fold_scan_item.
    now destruct (kept_device (ubiquiti_ids (all_records n pg)) (all_records m pi) k). }
  split; [|split; [|split]].
  - rewrite (get_all_active_serves http_get n pg m pi log Hm Hi), fold_scan_model.
    reflexivity.
  - apply NoDup_keys_fold_scan_item. constructor.
  - exact Hget.
  - intros k dev Hk. rewrite Hget in Hk.
    apply kept_device_item in Hk as (item & Hin & Hid & Hdev).
    apply item_device_fields in Hdev as (He & Ha & Hl).
    exists item. repeat split; assumption.
Qed.

Lemma active_devices_kept_witness :
  (serves_models Sample.two_pages MODELS_URL 2
     (fun p => match p with
               | 1 => [ {| model_id := 7; manufacturer_id := 2 |};
                        {| model_id := 8; manufacturer_id := 1 |} ]
               | _ => Sample.models
               end)
   /\ serves_items Sample.two_pages ITEMS_URL 2
        (fun p => match p with
                  | 1 => [ Sample.item10 Sample.three_fields "vehicles" ]
                  | _ => [ Sample.item10 Sample.three_fields "accounts" ]
                  end))
  /\ exists macs,
       get_all_active_ubiquiti_inventory_macs Sample.two_pages []
       = (Ok macs, (pagination_requests MODELS_URL 2 ++ pagination_requests ITEMS_URL 2)%list)
       /\ NoDup (PyDict.keys macs)
       /\ PyDict.get 10 macs
          = Some {| dev_assignee_id := 100; dev_mac := "11:22:33:44:55:66" |}.
Proof.
  split; [split; [exact two_pages_serves_models | exact two_pages_serves_items]|].
  destruct (active_devices_kept Sample.two_pages 2 2 _ _ []
              two_pages_serves_models two_pages_serves_items)
    as (macs & Hrun & Hnd & Hget & _).
  exists macs. split; [exact Hrun|]. split; [exact Hnd|].
  rewrite Hget. reflexivity.
Defined.

Lemma fold_scan_field_none item fs : forall macs,
  Forall (fun g => is_mac (field_data g) = false) fs ->
  fold_left (scan_field item) fs macs = macs.
Proof.
  induction fs as [|f fs IH]; intros macs Hfs; cbn [fold_left]; [reflexivity|].
  inversion Hfs as [|? ? Hf Hfs']; subst.
  unfold scan_field at 2. rewrite Hf. now apply IH.
Qed.

Lemma fold_scan_item_no_model items : forall macs,
  fold_left (scan_item []) items macs = macs.
Proof.
  induction items as [|item items IH]; intros macs; cbn [fold_left]; [reflexivity|].
  rewrite IH. unfold scan_item. cbn [int_in existsb].
  now destruct (negb (str_in (assignee_type item) EXCLUDED_ASSIGNEES)).
Qed.

Lemma ubiquiti_ids_none ms :
  (forall model, In model ms -> manufacturer_id model <> 1) -> ubiquiti_ids ms = [].
Proof.
  intros H. unfold ubiquiti_ids. induction ms as [|model ms IH]; [reflexivity|].
  cbn [filter]. replace (manufacturer_id model =? 1) with false.
  - apply IH. intros model' Hin. apply H. now right.
  - symmetry. apply Z.eqb_neq. apply H. now left.
Qed.

(** X11: an item whose model is not in the model list, or none of whose
    fields passes the MAC test (an item without fields among them), is
    dropped: scanning it leaves the devices as they are, whatever its
    assignee. *)
Theorem item_without_device_dropped
    (models : list Z) (macs : PyDict.t Z Device) (item : InventoryItem) :
  int_in (inventory_model_id item) models = false
  \/ Forall (fun g => is_mac (field_data g) = false) (fields item) ->
  scan_item models macs item = macs.
Proof.
  intros H. unfold scan_item.
  destruct (negb (str_in (assignee_type item) EXCLUDED_ASSIGNEES)); [|reflexivity].
  destruct H as [-> | H]; [reflexivity|].
  destruct (int_in (inventory_model_id item) models); [|reflexivity].
  now apply fold_scan_field_none.
Qed.

Lemma item_without_device_dropped_witness :
  let no_mac := Sample.item10 [ {| field_data := "AA:BB:CC:DD:EE" |};
                                {| field_data := "" |} ] "account" in
  let other := {| dev_assignee_id := 7; dev_mac := "00-00-00-00-00-00" |} in
  (int_in (inventory_model_id no_mac) [1] = true
   /\ Forall (fun g => is_mac (field_data g) = false) (fields no_mac))
  /\ scan_item [1] [(10, other)] no_mac = [(10, other)].
Proof.
  cbv zeta.
  assert (H : Forall (fun g => is_mac (field_data g) = false)
                     [ {| field_data := "AA:BB:CC:DD:EE" |}; {| field_data := "" |} ]).
  { repeat constructor. }
  split; [split; [reflexivity | exact H]|].
  apply (item_without_device_dropped [1]
           [(10, {| dev_assignee_id := 7; dev_mac := "00-00-00-00-00-00" |})]
           (Sample.item10 [ {| field_data := "AA:BB:CC:DD:EE" |}; {| field_data := "" |} ]
                          "account")).
  right. exact H.
Defined.

(** X12: when no model served has manufacturer_id 1, the filter keeps no
    device, whatever the items are; the items are requested all the
    same. *)
Theorem no_ubiquiti_model_no_device
    {Coord : Type} (http_get : string -> option Z -> Response Coord)
    (n m : Z) (pg : Z -> list InventoryModel) (pi : Z -> list InventoryItem)
    (log : list Request) :
  serves_models http_get MODELS_URL n pg ->
  (forall model, In model (all_records n pg) -> manufacturer_id model <> 1) ->
  serves_items http_get ITEMS_URL m pi ->
  get_all_active_ubiquiti_inventory_macs http_get log
  = (Ok PyDict.empty,
     (log ++ pagination_requests MODELS_URL n ++ pagination_requests ITEMS_URL m)%list).
Proof.
  intros Hm Hnone Hi.
  rewrite (get_all_active_serves http_get n pg m pi log Hm Hi), fold_scan_model.
  rewrite (ubiquiti_ids_none _ Hnone). cbn [app].
  now rewrite fold_scan_item_no_model.
Qed.

Lemma no_ubiquiti_model_no_device_witness :
  let pg := fun _ : Z => [ {| model_id := 1; manufacturer_id := 2 |} ] in
  (serves_models Faulty.other_maker MODELS_URL 1 pg
   /\ (forall model, In model (all_records 1 pg) -> manufacturer_id model <> 1)
   /\ serves_items Faulty.other_maker ITEMS_URL 1 (fun _ => Sample.items))
  /\ get_all_active_ubiquiti_inventory_macs Faulty.other_maker []
     = (Ok [], (pagination_requests MODELS_URL 1 ++ pagination_requests ITEMS_URL 1)%list).
Proof.
  cbv zeta.
  assert (Hm : serves_models Faulty.other_maker MODELS_URL 1
                 (fun _ => [ {| model_id := 1; manufacturer_id := 2 |} ])).
  { split; [eexists; split; reflexivity|].
    repeat constructor; eexists; split; reflexivity. }
  assert (Hn : forall model,
             In model (all_records 1 (fun _ : Z => [ {| model_id := 1; manufacturer_id := 2 |} ])) ->
             manufacturer_id model <> 1).
  { intros model [<- | []]. cbn. discriminate. }
  assert (Hi : serves_items Faulty.other_maker ITEMS_URL 1 (fun _ => Sample.items)).
  { split; [eexists; split; reflexivity|].
    repeat constructor; eexists; split; reflexivity. }
  split; [split; [exact Hm | split; [exact Hn | exact Hi]]|].
  exact (no_ubiquiti_model_no_device Faulty.other_maker 1 1 _ _ [] Hm Hn Hi).
Defined.

(** ** The join, when every assignee has a coordinate *)

Section JoinFacts.

Context {Coord : Type}.

Lemma NoDup_get_in {V : Type} (d : PyDict.t Z V) (k : Z) (v : V) :
  NoDup (PyDict.keys d) -> In (k, v) d -> PyDict.get k d = Some v.
Proof.
  induction d as [|[k' v'] d IH]; cbn; [contradiction|].
  intros Hd Hin. inversion Hd as [|? ? Hk' Hd']; subst.
  destruct Hin as [Heq | Hin].
  - injection Heq as -> ->. now rewrite Z.eqb_refl.
  - destruct (k =? k') eqn:E; [|now apply IH].
    apply Z.eqb_eq in E. subst k'. exfalso. apply Hk'.
    change k with (fst (k, v)). now apply in_map.
Qed.

Lemma join_entries (macs : PyDict.t Z Device) (coordinates : PyDict.t Z Coord) :
  forall (entries : list (Z * Device)) (matched : PyDict.t string Coord) (log : list Request),
  (forall k dev, In (k, dev) entries ->
     PyDict.get k macs = Some dev
     /\ PyDict.get (dev_assignee_id dev) coordinates <> None) ->
  exists matched',
    for_each (map fst entries)
      (fun matched item => lift (join_step macs coordinates matched item)) matched log
    = (Ok matched', log)
    /\ (NoDup (PyDict.keys matched) -> NoDup (PyDict.keys matched'))
    /\ (length matched' <= length matched + length entries)%nat
    /\ forall mac,
         PyDict.get mac matched'
         = match last_with_mac mac entries with
           | Some dev => PyDict.get (dev_assignee_id dev) coordinates
           | None => PyDict.get mac matched
           end.
Proof.
  induction entries as [|[k dev] entries IH]; intros matched log Hall.
  - exists matched. cbn. repeat split; auto. lia.
  - destruct (Hall k dev (or_introl eq_refl)) as [Hk Hc].
    destruct (PyDict.get (dev_assignee_id dev) coordinates) as [c|] eqn:Ec; [|congruence].
    destruct (IH (PyDict.set (dev_mac dev) c matched) log) as (matched' & Hrun & Hnd & Hlen & Hget).
    { intros k' dev' Hin. apply Hall. now right. }
    exists matched'. split; [|split; [|split]].
    + cbn [map fst for_each]. unfold bind at 1, lift at 1, join_step at 1.
      rewrite Hk, Ec. exact Hrun.
    + intros Hm. apply Hnd. now apply NoDup_keys_set.
    + pose proof (length_set (dev_mac dev) c matched). cbn [length]. lia.
    + intros mac. rewrite Hget. cbn [last_with_mac].
      destruct (last_with_mac mac entries); [reflexivity|].
      rewrite get_set. cbn [PyDict.eqb PyDict.Key_string].
      rewrite (String.eqb_sym mac).
      destruct (String.eqb (dev_mac dev) mac); [now rewrite Ec | reflexivity].
Qed.

Lemma join_present (macs : PyDict.t Z Device) (coordinates : PyDict.t Z Coord)
    (log : list Request) :
  NoDup (PyDict.keys macs) ->
  (forall k dev, PyDict.get k macs = Some dev ->
     PyDict.get (dev_assignee_id dev) coordinates <> None) ->
  exists matched,
    join macs coordinates log = (Ok matched, log)
    /\ NoDup (PyDict.keys matched)
    /\ (length matched <= length macs)%nat
    /\ forall mac,
         PyDict.get mac matched
         = match last_with_mac mac macs with
           | Some dev => PyDict.get (dev_assignee_id dev) coordinates
           | None => None
           end.
Proof.
  intros Hd Hall.
  destruct (join_entries macs coordinates macs PyDict.empty log)
    as (matched & Hrun & Hnd & Hlen & Hget).
  { intros k dev Hin. pose proof (NoDup_get_in macs k dev Hd Hin) as Hk.
    split; [exact Hk | now apply (Hall k)]. }
  exists matched. split; [exact Hrun|]. split; [apply Hnd; constructor|].
  split; [exact Hlen | exact Hget].
Qed.

End JoinFacts.

(** X13: when the keys of the devices are distinct and every device's
    assignee has a coordinate, the join succeeds without any request; the
    result has distinct keys and no more entries than there are devices,
    and a mac is mapped to the coordinate of the assignee of the LAST
    device, in the order of the devices, that has this mac.  Two devices
    with the same mac leave one entry. *)
Theorem join_last_device_wins
    {Coord : Type} (macs : PyDict.t Z Device) (coordinates : PyDict.t Z Coord)
    (log : list Request) :
  NoDup (PyDict.keys macs) ->
  (forall k dev, PyDict.get k macs = Some dev ->
     PyDict.get (dev_assignee_id dev) coordinates <> None) ->
  exists matched,
    join macs coordinates log = (Ok matched, log)
    /\ NoDup (PyDict.keys matched)
    /\ (length matched <= length macs)%nat
    /\ forall mac,
         PyDict.get mac matched
         = match last_with_mac mac macs with
           | Some dev => PyDict.get (dev_assignee_id dev) coordinates
           | None => None
           end.
Proof. apply join_present. Qed.

Lemma join_last_device_wins_witness :
  let macs := [ (1, {| dev_assignee_id := 100; dev_mac := "AA:BB:CC:DD:EE:FF" |});
                (2, {| dev_assignee_id := 200; dev_mac := "AA:BB:CC:DD:EE:FF" |}) ] in
  let coordinates := [ (100, (1, 1)); (200, (2, 2)) ] in
  NoDup (PyDict.keys macs)
  /\ join macs coordinates [] = (Ok [("AA:BB:CC:DD:EE:FF", (2, 2))], [])
  /\ exists matched,
       join macs coordinates [] = (Ok matched, [])
       /\ NoDup (PyDict.keys matched)
       /\ (length matched <= length macs)%nat
       /\ forall mac,
            PyDict.get mac matched
            = match last_with_mac mac macs with
              | Some dev => PyDict.get (dev_assignee_id dev) coordinates
              | None => None
              end.
Proof.
  cbv zeta.
  assert (Hd : NoDup (PyDict.keys
                        [ (1, {| dev_assignee_id := 100; dev_mac := "AA:BB:CC:DD:EE:FF" |});
                          (2, {| dev_assignee_id := 200; dev_mac := "AA:BB:CC:DD:EE:FF" |}) ])).
  { cbn. repeat constructor; cbn; intuition discriminate. }
  split; [exact Hd|]. split; [reflexivity|].
  apply (join_last_device_wins
           [ (1, {| dev_assignee_id := 100; dev_mac := "AA:BB:CC:DD:EE:FF" |});
             (2, {| dev_assignee_id := 200; dev_mac := "AA:BB:CC:DD:EE:FF" |}) ]
           [ (100, (1, 1)); (200, (2, 2)) ] [] Hd).
  intros k dev. cbn.
  destruct (k =? 1); [intros H; injection H as <-; cbn; discriminate|].
  destruct (k =? 2); [intros H; injection H as <-; cbn; discriminate|].
  discriminate.
Defined.

(** ** What may follow a MAC *)

Lemma groups_app hex sep n : forall v,
  groups hex sep is_empty n v = true ->
  forall (tail : string -> bool) (s : string),
  groups hex sep tail n (v ++ s) = tail s.
Proof.
  induction n as [|n IH]; intros [|a [|b r]] Hv tail s; cbn [groups] in Hv; try discriminate.
  - apply andb_true_iff in Hv as [Hab Hr]. destruct r; [|discriminate].
    cbn [append groups]. now rewrite Hab.
  - apply andb_true_iff in Hv as [Hab Hr]. destruct r as [|c r]; [discriminate|].
    apply andb_true_iff in Hr as [Hc Hr].
    cbn [append groups]. rewrite Hab, Hc. cbn [andb]. now apply IH.
Qed.

(** X14: a MAC of six groups is 17 characters long, and the text made of
    a MAC and of something after it passes the MAC test only when that
    something is empty or is one newline: a space, a carriage return
    before the newline, a second newline or a seventh group make the
    filter skip the field. *)
Theorem mac_followed_by (v s : string) :
  mac48 v = true ->
  String.length v = 17%nat
  /\ is_mac (v ++ s) = Re.at_eol s
  /\ (is_mac (v ++ s) = true <-> s = EmptyString \/ s = nl).
Proof.
  intros Hv. split; [exact (groups_length _ _ 5 v Hv)|].
  assert (H : is_mac (v ++ s) = Re.at_eol s).
  { now apply mac48_append_is_mac. }
  split; [exact H|]. rewrite H. apply at_eol_iff.
Qed.

Lemma mac_followed_by_witness :
  let cr := String (ascii_of_nat 13) EmptyString in
  mac48 "aa:bb:cc:dd:ee:ff" = true
  /\ is_mac ("aa:bb:cc:dd:ee:ff" ++ (cr ++ nl)) = false
  /\ is_mac ("aa:bb:cc:dd:ee:ff" ++ " ") = false
  /\ is_mac ("aa:bb:cc:dd:ee:ff" ++ ":00") = false
  /\ (String.length "aa:bb:cc:dd:ee:ff" = 17%nat
      /\ is_mac ("aa:bb:cc:dd:ee:ff" ++ (nl ++ nl)) = Re.at_eol (nl ++ nl)
      /\ (is_mac ("aa:bb:cc:dd:ee:ff" ++ (nl ++ nl)) = true
          <-> nl ++ nl = EmptyString \/ nl ++ nl = nl)).
Proof.
  cbv zeta. repeat (split; [reflexivity|]).
  apply (mac_followed_by "aa:bb:cc:dd:ee:ff" (nl ++ nl)). reflexivity.
Defined.

(** ** The whole run *)

Lemma length_pagination_requests url n :
  length (pagination_requests url n) = S (Z.to_nat n).
Proof.
  unfold pagination_requests, range. cbn [length]. now rewrite !length_map, length_seq.
Qed.

(** X15: when the four resources are served and every device the filter
    keeps has an assignee with a coordinate, the run succeeds: the
    requests are those of the models, of the items, of the accounts and
    of the network sites, in this order, total_pages of both paged
    resources plus four in all; the result has distinct keys, and a mac
    is mapped to the coordinate that the geo index gives the assignee of
    the last kept device with this mac. *)
Theorem run_succeeds
    {Coord : Type} (http_get : string -> option Z -> Response Coord)
    (n m : Z) (pg : Z -> list InventoryModel) (pi : Z -> list InventoryItem)
    (accounts sites : list (GeoFeature Coord)) (log : list Request) :
  serves_models http_get MODELS_URL n pg ->
  serves_items http_get ITEMS_URL m pi ->
  answers http_get ACCOUNTS_URL None (FeatureCollection accounts) ->
  answers http_get SITES_URL None (FeatureCollection sites) ->
  (forall k dev,
     kept_device (ubiquiti_ids (all_records n pg)) (all_records m pi) k = Some dev ->
     geo_lookup accounts sites (dev_assignee_id dev) <> None) ->
  exists macs matched requests,
    get_all_active_ubiquiti_inventory_macs http_get log
    = (Ok macs, (log ++ pagination_requests MODELS_URL n
                     ++ pagination_requests ITEMS_URL m)%list)
    /\ match_coordinates_to_inventory http_get log = (Ok matched, (log ++ requests)%list)
    /\ requests
       = (pagination_requests MODELS_URL n ++ pagination_requests ITEMS_URL m
            ++ [ {| req_url := ACCOUNTS_URL; req_page := None |};
                 {| req_url := SITES_URL; req_page := None |} ])%list
    /\ length requests = (Z.to_nat n + Z.to_nat m + 4)%nat
    /\ NoDup (PyDict.keys matched)
    /\ forall mac,
         PyDict.get mac matched
         = match last_with_mac mac macs with
           | Some dev => geo_lookup accounts sites (dev_assignee_id dev)
           | None => None
           end.
Proof.
  intros Hm Hi Ha Hs Hall.
  set (models := ubiquiti_ids (all_records n pg)) in *.
  set (macs := fold_left (scan_item models) (all_records m pi) PyDict.empty).
  set (index := PyDict.merge (index_features accounts) (index_features sites)).
  assert (Hmacs : get_all_active_ubiquiti_inventory_macs http_get log
                  = (Ok macs, (log ++ pagination_requests MODELS_URL n
                                   ++ pagination_requests ITEMS_URL m)%list)).
  { rewrite (get_all_active_serves http_get n pg m pi log Hm Hi), fold_scan_model.
    reflexivity. }
  destruct (join_present macs index
              ((log ++ pagination_requests MODELS_URL n ++ pagination_requests ITEMS_URL m)
                 ++ [ {| req_url := ACCOUNTS_URL; req_page := None |};
                      {| req_url := SITES_URL; req_page := None |} ])%list)
    as (matched & Hjoin & Hnd & _ & Hget).
  { apply NoDup_keys_fold_scan_item. constructor. }
  { intros k dev Hk. unfold index. rewrite get_geo_index. apply (Hall k).
    unfold macs in Hk. rewrite get_fold_scan_item in Hk.
    now destruct (kept_device models (all_records m pi) k). }
  exists macs, matched.
  exists (pagination_requests MODELS_URL n ++ pagination_requests ITEMS_URL m
            ++ [ {| req_url := ACCOUNTS_URL; req_page := None |};
                 {| req_url := SITES_URL; req_page := None |} ])%list.
  split; [exact Hmacs|]. split; [|split; [reflexivity|split; [|split]]].
  - unfold match_coordinates_to_inventory.
    rewrite (bind_ok _ _ _ _ _ Hmacs).
    rewrite (bind_ok _ _ _ _ _ (get_all_coordinates_answers http_get accounts sites _ Ha Hs)).
    fold index. rewrite Hjoin. now rewrite <- !app_assoc.
  - rewrite !length_app, !length_pagination_requests. cbn [length]. lia.
  - exact Hnd.
  - intros mac. rewrite Hget. destruct (last_with_mac mac macs); [|reflexivity].
    unfold index. apply get_geo_index.
Qed.

Lemma run_succeeds_witness :
  (serves_models Sample.http_get MODELS_URL 1 (fun _ => Sample.models)
   /\ serves_items Sample.http_get ITEMS_URL 1 (fun _ => Sample.items)
   /\ answers Sample.http_get ACCOUNTS_URL None (FeatureCollection Sample.accounts)
   /\ answers Sample.http_get SITES_URL None (FeatureCollection []))
  /\ exists macs matched requests,
       get_all_active_ubiquiti_inventory_macs Sample.http_get []
       = (Ok macs, (pagination_requests MODELS_URL 1 ++ pagination_requests ITEMS_URL 1)%list)
       /\ match_coordinates_to_inventory Sample.http_get [] = (Ok matched, requests)
       /\ requests
          = (pagination_requests MODELS_URL 1 ++ pagination_requests ITEMS_URL 1
               ++ [ {| req_url := ACCOUNTS_URL; req_page := None |};
                    {| req_url := SITES_URL; req_page := None |} ])%list
       /\ length requests = 6%nat
       /\ NoDup (PyDict.keys matched)
       /\ forall mac,
            PyDict.get mac matched
            = match last_with_mac mac macs with
              | Some dev => geo_lookup Sample.accounts [] (dev_assignee_id dev)
              | None => None
              end.
Proof.
  assert (Hm : serves_models Sample.http_get MODELS_URL 1 (fun _ => Sample.models)).
  { split; [eexists; split; reflexivity|].
    repeat constructor; eexists; split; reflexivity. }
  assert (Hi : serves_items Sample.http_get ITEMS_URL 1 (fun _ => Sample.items)).
  { split; [eexists; split; reflexivity|].
    repeat constructor; eexists; split; reflexivity. }
  split; [split; [exact Hm | split; [exact Hi | split; reflexivity]]|].
  apply (run_succeeds Sample.http_get 1 1 (fun _ => Sample.models) (fun _ => Sample.items)
           Sample.accounts [] [] Hm Hi eq_refl eq_refl).
  intros k dev H.
  assert (Hd : dev = {| dev_assignee_id := 100; dev_mac := "AA:BB:CC:DD:EE:FF" |}).
  { change (kept_device _ _ k) with
      (if 10 =? k
       then Some {| dev_assignee_id := 100; dev_mac := "AA:BB:CC:DD:EE:FF" |}
       else None) in H.
    destruct (10 =? k); [now injection H | discriminate H]. }
  rewrite Hd. vm_compute. discriminate.
Defined.

(** X16: when the first request of a run, the one that reads the
    total_pages of the models, is refused, the run fails with the
    [APIError] of that request and nothing else is requested: neither a
    page, nor the items, nor the geo endpoints. *)
Theorem run_first_request_refused
    {Coord : Type} (http_get : string -> option Z -> Response Coord) (log : list Request) :
  status_code (http_get MODELS_URL None) <> 200 ->
  match_coordinates_to_inventory http_get log
  = (Err (APIError "GET" MODELS_URL (status_code (http_get MODELS_URL None))),
     (log ++ [ {| req_url := MODELS_URL; req_page := None |} ])%list).
Proof.
  intros Hs.
  unfold match_coordinates_to_inventory, get_all_active_ubiquiti_inventory_macs,
    get_all_ubiquiti_models.
  apply bind_err. apply bind_err. apply bind_err.
  exact (rest_get_not_200 http_get "/inventory/models" MODELS_URL None log eq_refl Hs).
Qed.

Lemma run_first_request_refused_witness :
  status_code (Faulty.down MODELS_URL None) <> 200
  /\ match_coordinates_to_inventory Faulty.down []
     = (Err (APIError "GET" MODELS_URL 500), [ {| req_url := MODELS_URL; req_page := None |} ]).
Proof.
  split; [vm_compute; discriminate|].
  apply (run_first_request_refused Faulty.down []). vm_compute. discriminate.
Defined.

(** X17: the output file is opened and its four header lines are written
    before the devices are fetched, so a run that ends on a device whose
    assignee has no coordinate leaves a file that holds these four lines
    and nothing else: no placemark, and no closing tag. *)
Theorem main_leaves_header_on_missing_assignee
    {Coord : Type} (http_get : string -> option Z -> Response Coord)
    (str_0 str_1 : Coord -> string)
    (log log1 log2 : list Request)
    (macs : PyDict.t Z Device) (coordinates : PyDict.t Z Coord)
    (item : Z) (dev : Device) :
  get_all_active_ubiquiti_inventory_macs http_get log = (Ok macs, log1) ->
  get_all_coordinates http_get log1 = (Ok coordinates, log2) ->
  PyDict.get item macs = Some dev ->
  PyDict.get (dev_assignee_id dev) coordinates = None ->
  exists k,
    main http_get str_0 str_1 log = (Err (KeyError (KInt k)), log2, KML_HEADER)
    /\ PyDict.get k coordinates = None.
Proof.
  intros Hmacs Hcoords Hdev Hmiss.
  destruct (join_missing_key macs coordinates item dev log2 Hdev Hmiss) as (k & Hj & Hk).
  exists k. split; [|exact Hk].
  unfold main, match_coordinates_to_inventory.
  rewrite (bind_ok _ _ _ _ _ Hmacs), (bind_ok _ _ _ _ _ Hcoords), Hj. reflexivity.
Qed.

Lemma main_leaves_header_on_missing_assignee_witness :
  let log1 := (pagination_requests MODELS_URL 2 ++ pagination_requests ITEMS_URL 2)%list in
  let log2 := (log1 ++ [ {| req_url := ACCOUNTS_URL; req_page := None |};
                         {| req_url := SITES_URL; req_page := None |} ])%list in
  let dev := {| dev_assignee_id := 100; dev_mac := "11:22:33:44:55:66" |} in
  let str_0 := fun c : Z * Z => Faulty.digit (fst c) in
  let str_1 := fun c : Z * Z => Faulty.digit (snd c) in
  (get_all_active_ubiquiti_inventory_macs Sample.two_pages [] = (Ok [(10, dev)], log1)
   /\ get_all_coordinates Sample.two_pages log1 = (Ok [(1, (2, 2))], log2)
   /\ PyDict.get 10 [(10, dev)] = Some dev
   /\ PyDict.get 100 [(1, (2, 2))] = None)
  /\ exists k,
       main Sample.two_pages str_0 str_1 [] = (Err (KeyError (KInt k)), log2, KML_HEADER)
       /\ PyDict.get k [(1, (2, 2))] = None.
Proof.
  cbv zeta. split.
  - repeat split.
  - apply (main_leaves_header_on_missing_assignee Sample.two_pages
             (fun c => Faulty.digit (fst c)) (fun c => Faulty.digit (snd c)) []
             (pagination_requests MODELS_URL 2 ++ pagination_requests ITEMS_URL 2)%list
             ((pagination_requests MODELS_URL 2 ++ pagination_requests ITEMS_URL 2)
                ++ [ {| req_url := ACCOUNTS_URL; req_page := None |};
                     {| req_url := SITES_URL; req_page := None |} ])%list
             [(10, {| dev_assignee_id := 100; dev_mac := "11:22:33:44:55:66" |})]
             [(1, (2, 2))] 10
             {| dev_assignee_id := 100; dev_mac := "11:22:33:44:55:66" |});
      reflexivity.
Defined.

(** ** The writer *)



